(** * vrcprl/sim: tag cell, Vault matter tool and Vault block handler

    A shallow embedding of three TypeScript units and the properties their
    specification states about them:

    - [google-vault-handler.ts]: [isCredentialRefreshError],
      [enhanceCredentialError] and [GoogleVaultBlockHandler.execute];
    - [document-tags-cell.tsx]: [formatTagValue], [getFieldType] and the
      [DocumentTagsCell] component;
    - the [createMattersTool] tool descriptor.

    JavaScript strings are sequences of UTF-16 code units.  What the code
    delegates to the JavaScript runtime or to third-party packages
    (case mapping, [JSON.parse], [Date], date-fns, number printing) is an
    interface: a type class whose operations the embedding calls, with the
    facts a proof needs about them stated as named hypotheses. *)

From Stdlib Require Import String Ascii NArith ZArith Bool List.
From stdpp Require Import base tactics option list gmap.

Local Open Scope N_scope.
Set Warnings "-register-all".

(** ** Strings *)

Module JS.

(** A string is its sequence of UTF-16 code units. *)
Definition jsstring : Type := list N.

(** The code units of an ASCII literal of the source text. *)
Definition lit (s : string) : list N :=
  N_of_ascii <$> list_ascii_of_string s.

(** The double-quote character, U+0022. *)
Definition dquote : list N := [34].

(** [t] is a prefix of [s]. *)
Fixpoint starts_with (s t : list N) {struct t} : bool :=
  match t, s with
  | [], _ => true
  | _ :: _, [] => false
  | c :: t', d :: s' => (c =? d) && starts_with s' t'
  end.

(** [String.prototype.includes]: [t] occurs in [s] at some position. *)
Fixpoint includes (s t : list N) : bool :=
  starts_with s t ||
  match s with
  | [] => false
  | _ :: s' => includes s' t
  end.

(** The specification's reading of "contains": [t] is a contiguous part. *)
Definition contains (s t : list N) : Prop :=
  ∃ pre post, s = pre ++ t ++ post.

(** [Array.prototype.join] on strings. *)
Fixpoint join (sep : list N) (parts : list (list N)) : list N :=
  match parts with
  | [] => []
  | [p] => p
  | p :: rest => p ++ sep ++ join sep rest
  end.

(** White space and line terminators, the code units [trim] strips. *)
Definition is_space (c : N) : bool :=
  ((9 <=? c) && (c <=? 13)) || (c =? 32) || (c =? 160) || (c =? 5760)
  || ((8192 <=? c) && (c <=? 8202)) || (c =? 8232) || (c =? 8233)
  || (c =? 8239) || (c =? 8287) || (c =? 12288) || (c =? 65279).

Fixpoint trim_start (s : list N) : list N :=
  match s with
  | c :: s' => if is_space c then trim_start s' else s
  | [] => []
  end.

(** [String.prototype.trim]. *)
Definition trim (s : list N) : list N :=
  rev (trim_start (rev (trim_start s))).

(** Lower-casing of one ASCII code unit. *)
Definition ascii_lower (c : N) : N :=
  if (65 <=? c) && (c <=? 90) then c + 32 else c.

Definition is_ascii (c : N) : Prop := c < 128.

(** Decimal digits of a natural number, most significant first
    ([Number.prototype.toString] on a non-negative integer). *)
Fixpoint digits_fuel (fuel : nat) (n : N) (acc : list N) : list N :=
  match fuel with
  | O => acc
  | S fuel' =>
      let acc' := (48 + n mod 10) :: acc in
      if n <? 10 then acc' else digits_fuel fuel' (n / 10) acc'
  end.

Definition decimal (n : N) : list N :=
  digits_fuel (S (N.to_nat (N.log2 n))) n [].

(** [a || b] on strings, where [a] may be [undefined]: the empty string
    and [undefined] are the falsy ones. *)
Definition or_else (a : option jsstring) (b : jsstring) : jsstring :=
  match a with
  | Some ((_ :: _) as s) => s
  | _ => b
  end.

End JS.

Export JS.

(** The case mapping of the runtime, [String.prototype.toLowerCase]. *)
Class StringHost := {
  toLowerCase : jsstring → jsstring
}.

(** What the proofs use of [toLowerCase]: on a string of ASCII code units
    it lower-cases A to Z and leaves every other unit alone. *)
Definition LowersAscii `{StringHost} : Prop :=
  ∀ s : jsstring, Forall is_ascii s → toLowerCase s = ascii_lower <$> s.

(** ** google-vault-handler.ts: credential errors *)

Section CredentialErrors.
Context `{StringHost}.

Definition isCredentialRefreshError (errorMessage : jsstring) : bool :=
  let lowerMessage := toLowerCase errorMessage in
  includes lowerMessage (lit "invalid_rapt")
  || includes lowerMessage (lit "reauth related error")
  || (includes lowerMessage (lit "invalid_grant")
      && includes lowerMessage (lit "rapt"))
  || includes lowerMessage (lit "failed to refresh token")
  || (includes lowerMessage (lit "failed to fetch access token")
      && includes lowerMessage (lit "401")).

(** The fixed message [enhanceCredentialError] substitutes. *)
Definition REMEDIATION : jsstring :=
  lit "Google Vault authentication failed (likely due to reauthentication policy). "
  ++ lit "To resolve this, try disconnecting and reconnecting your Google Vault credential "
  ++ lit "in the Credentials settings. If the issue persists, ask your Google Workspace "
  ++ lit "administrator to disable " ++ dquote ++ lit "Reauthentication policy" ++ dquote
  ++ lit " for Sim Studio in the Google "
  ++ lit "Admin Console (Security > Access and data control > Context-Aware Access > "
  ++ lit "Reauthentication policy), or exempt Sim Studio from reauthentication requirements. "
  ++ lit "Learn more: https://support.google.com/a/answer/9368756".

Definition enhanceCredentialError (originalError : jsstring) : jsstring :=
  if isCredentialRefreshError originalError then REMEDIATION
  else originalError.

(** The trigger condition in the specification's words, on the lower-cased
    text. *)
Definition reauth_trigger (lower : jsstring) : Prop :=
  contains lower (lit "invalid_rapt")
  ∨ contains lower (lit "reauth related error")
  ∨ (contains lower (lit "invalid_grant") ∧ contains lower (lit "rapt"))
  ∨ contains lower (lit "failed to refresh token")
  ∨ (contains lower (lit "failed to fetch access token")
     ∧ contains lower (lit "401")).

End CredentialErrors.

(** A runtime whose case mapping touches ASCII letters only; it is used
    to evaluate the definitions on concrete ASCII inputs. *)
Definition ascii_host : StringHost :=
  {| toLowerCase := fmap ascii_lower |}.

(** ** JavaScript values *)

(** Numbers are IEEE doubles in the runtime; the code only tests them for
    truthiness and prints them, so they are an abstract type with those
    operations. *)
Class NumberHost := {
  number : Type;
  (** [false] on [0], [-0] and [NaN] *)
  number_truthy : number → bool;
  (** [Number.prototype.toString] *)
  number_toString : number → jsstring;
  (** [Number.prototype.toLocaleString], in the default locale *)
  number_toLocaleString : number → jsstring;
  (** the double of an integer literal *)
  number_of_Z : Z → number
}.

Section Values.
Context `{NumberHost}.

Inductive value : Type :=
  | VUndefined
  | VNull
  | VBool (b : bool)
  | VNum (n : number)
  | VStr (s : jsstring)
  | VArr (items : list value)
  | VObj (props : list (jsstring * value)).

(** [v === null || v === undefined] *)
Definition is_nullish (v : value) : bool :=
  match v with
  | VUndefined | VNull => true
  | _ => false
  end.

(** ToBoolean. *)
Definition truthy (v : value) : bool :=
  match v with
  | VUndefined | VNull => false
  | VBool b => b
  | VNum n => number_truthy n
  | VStr s => negb (bool_decide (s = []))
  | VArr _ | VObj _ => true
  end.

(** [String(v)]. *)
Fixpoint to_String (v : value) : jsstring :=
  match v with
  | VUndefined => lit "undefined"
  | VNull => lit "null"
  | VBool true => lit "true"
  | VBool false => lit "false"
  | VNum n => number_toString n
  | VStr s => s
  | VArr items =>
      join (lit ",")
        (List.map (λ x, if is_nullish x then [] else to_String x) items)
  | VObj _ => lit "[object Object]"
  end.

(** Own property of an object literal. *)
Fixpoint own_prop (props : list (jsstring * value)) (key : jsstring)
  : option value :=
  match props with
  | [] => None
  | (k, v) :: rest => if bool_decide (k = key) then Some v else own_prop rest key
  end.

End Values.

(** ** document-tags-cell.tsx *)

(** [Date] objects and the date-fns rendering of a valid one. *)
Class DateHost `{NumberHost} := {
  date : Type;
  (** [new Date(v)] *)
  new_Date : value → date;
  (** the time value of the date is not [NaN] *)
  date_valid : date → bool;
  (** what date-fns prints for a valid date under a pattern, in the
      runtime's local time zone *)
  format_valid : date → jsstring → jsstring
}.

Section TagsCell.
Context `{NumberHost} `{!DateHost}.

(** date-fns [format]: it throws a [RangeError] on an invalid date, which
    is [None] here. *)
Definition format (d : date) (pattern : jsstring) : option jsstring :=
  if date_valid d then Some (format_valid d pattern) else None.

(** All tag slot keys that can hold values. *)
Definition TAG_SLOTS : list jsstring :=
  [ lit "tag1"; lit "tag2"; lit "tag3"; lit "tag4"; lit "tag5"; lit "tag6";
    lit "tag7";
    lit "number1"; lit "number2"; lit "number3"; lit "number4"; lit "number5";
    lit "date1"; lit "date2";
    lit "boolean1"; lit "boolean2"; lit "boolean3" ].

Record TagValue := {
  slot : jsstring;
  displayName : jsstring;
  tv_value : jsstring;
  fieldType : jsstring
}.

(** Modelled from the spec: the [TagDefinition] type, which the component
    imports from the tag-definition hook.  A definition maps a slot name
    to a label and a field type; the component reads these three
    properties and no other. *)
Record TagDefinition := {
  def_tagSlot : jsstring;
  def_displayName : jsstring;
  def_fieldType : jsstring
}.

(** Modelled from the spec: the [DocumentData] type, imported from the
    knowledge store.  The component only reads [document[slot]]; a property
    that is not there reads as [undefined]. *)
Definition document_get (document : gmap jsstring value) (key : jsstring)
  : value :=
  default VUndefined (document !! key).

Definition formatTagValue (v : value) (fieldType : jsstring) : jsstring :=
  if is_nullish v then []
  else if bool_decide (fieldType = lit "date") then
    match format (new_Date v) (lit "MMM d, yyyy") with
    | Some formatted => formatted
    | None => to_String v
    end
  else if bool_decide (fieldType = lit "boolean") then
    if truthy v then lit "Yes" else lit "No"
  else if bool_decide (fieldType = lit "number") then
    match v with
    | VNum n => number_toLocaleString n
    | _ => to_String v
    end
  else to_String v.

Definition getFieldType (slot : jsstring) : jsstring :=
  if starts_with slot (lit "tag") then lit "text"
  else if starts_with slot (lit "number") then lit "number"
  else if starts_with slot (lit "date") then lit "date"
  else if starts_with slot (lit "boolean") then lit "boolean"
  else lit "text".

(** One turn of the loop over [TAG_SLOTS]: [continue] leaves [result] as it
    is, [push] appends. *)
Definition tags_step (document : gmap jsstring value)
    (tagDefinitions : list TagDefinition)
    (result : list TagValue) (slot : jsstring) : list TagValue :=
  let v := document_get document slot in
  if is_nullish v then result
  else
    let definition :=
      List.find (λ def, bool_decide (def_tagSlot def = slot)) tagDefinitions in
    let fieldType :=
      or_else (def_fieldType <$> definition) (getFieldType slot) in
    let formattedValue := formatTagValue v fieldType in
    if bool_decide (formattedValue = []) then result
    else
      result ++ [ {| slot := slot;
                     displayName := or_else (def_displayName <$> definition) slot;
                     tv_value := formattedValue;
                     fieldType := fieldType |} ].

(** The memoised [tags] of the component. *)
Definition tags (document : gmap jsstring value)
    (tagDefinitions : list TagDefinition) : list TagValue :=
  fold_left (tags_step document tagDefinitions) TAG_SLOTS [].

(** The rendered tree: text, a number child, or an element with its
    [key] and children.  Styling props and the click handler that stops
    propagation are not part of the tree. *)
Inductive node : Type :=
  | Text (s : jsstring)
  | Count (n : nat)
  | Elem (component : string) (key : option jsstring) (children : list node).

(** The placeholder text of line 106, as the source file holds it: the
    three code units U+00E2, U+20AC and U+201D. *)
Definition DASH : jsstring := [226; 8364; 8221].

Definition inline_badge (tag : TagValue) : node :=
  Elem "Tooltip.Root" (Some (slot tag))
    [ Elem "Tooltip.Trigger" None [ Elem "Badge" None [ Text (tv_value tag) ] ];
      Elem "Tooltip.Content" None
        [ Text (displayName tag); Text (lit ": "); Text (tv_value tag) ] ].

Definition detail_row (tag : TagValue) : node :=
  Elem "div" (Some (slot tag))
    [ Elem "span" None [ Text (displayName tag) ];
      Elem "span" None [ Text (tv_value tag) ] ].

Definition overflow_popover (all overflowTags : list TagValue) : node :=
  Elem "Popover" None
    [ Elem "Tooltip.Root" None
        [ Elem "Tooltip.Trigger" None
            [ Elem "PopoverAnchor" None
                [ Elem "Badge" None
                    [ Text (lit "+"); Count (length overflowTags) ] ] ];
          Elem "Tooltip.Content" None
            [ Text (join (lit ", ") (displayName <$> overflowTags)) ] ];
      Elem "PopoverContent" None
        [ Elem "div" None (detail_row <$> all) ] ].

(** What the component returns for a given [tags] list. *)
Definition render (tags : list TagValue) : node :=
  if bool_decide (length tags = 0%nat) then
    Elem "span" None [ Text DASH ]
  else
    let visibleTags := take 2 tags in
    let overflowTags := drop 2 tags in
    let hasOverflow := bool_decide (0 < length overflowTags)%nat in
    Elem "div" None
      ((inline_badge <$> visibleTags)
       ++ (if hasOverflow then [ overflow_popover tags overflowTags ] else [])).

Definition DocumentTagsCell (document : gmap jsstring value)
    (tagDefinitions : list TagDefinition) : node :=
  render (tags document tagDefinitions).

(** Reading a rendered tree: its text, and its elements of one component
    in document order. *)
Fixpoint text_of (n : node) : jsstring :=
  match n with
  | Text s => s
  | Count k => decimal (N.of_nat k)
  | Elem _ _ children => List.concat (List.map text_of children)
  end.

Fixpoint elements (component : string) (n : node) : list node :=
  match n with
  | Elem c _ children =>
      (if String.eqb c component then [n] else [])
      ++ List.flat_map (elements component) children
  | _ => []
  end.

(** The definition [find] selects for a slot, and the field type and
    display name the loop derives from it. *)
Definition matching_definition (tagDefinitions : list TagDefinition)
    (slot : jsstring) : option TagDefinition :=
  List.find (λ def, bool_decide (def_tagSlot def = slot)) tagDefinitions.

Definition resolved_fieldType (tagDefinitions : list TagDefinition)
    (slot : jsstring) : jsstring :=
  or_else (def_fieldType <$> matching_definition tagDefinitions slot)
    (getFieldType slot).

(** A slot qualifies: its stored value is present and formats to a
    non-empty string. *)
Definition qualifies (document : gmap jsstring value)
    (tagDefinitions : list TagDefinition) (slot : jsstring) : bool :=
  negb (is_nullish (document_get document slot))
  && negb (bool_decide
             (formatTagValue (document_get document slot)
                (resolved_fieldType tagDefinitions slot) = [])).

(** The entry the loop pushes for a qualifying slot. *)
Definition tag_for (document : gmap jsstring value)
    (tagDefinitions : list TagDefinition) (slot : jsstring) : TagValue :=
  {| slot := slot;
     displayName :=
       or_else (def_displayName <$> matching_definition tagDefinitions slot) slot;
     tv_value :=
       formatTagValue (document_get document slot)
         (resolved_fieldType tagDefinitions slot);
     fieldType := resolved_fieldType tagDefinitions slot |}.

(** The runtime renders the instant 2024-03-05T00:00:00Z, in its local
    zone, as the fifth of March. *)
Definition RendersSampleDate : Prop :=
  let d := new_Date (VStr (lit "2024-03-05T00:00:00Z")) in
  date_valid d = true ∧ format_valid d (lit "MMM d, yyyy") = lit "Mar 5, 2024".

(** The default locale prints the number zero as "0". *)
Definition PrintsZero : Prop :=
  number_toLocaleString (number_of_Z 0) = lit "0".

(** The children of an element, as text. *)
Definition child_texts (n : node) : list jsstring :=
  match n with
  | Elem _ _ children => text_of <$> children
  | _ => []
  end.

End TagsCell.

(** ** google-vault-handler.ts: the block handler *)

(** [JSON.parse]; [None] when it throws a [SyntaxError]. *)
Class JsonHost `{NumberHost} := {
  JSON_parse : jsstring → option value
}.

Section Handler.
Context `{StringHost} `{NumberHost} `{!JsonHost}.

(** What [execute] reads of the execution context. *)
Record ExecutionContext := {
  workflowId : value;
  workspaceId : value;
  executionId : value
}.

(** What [execute] reads of a serialized block: [block.id],
    [block.metadata?.id], [block.metadata?.name] and [block.config.tool]. *)
Record BlockMetadata := {
  meta_id : option jsstring;
  meta_name : option jsstring
}.

Record SerializedBlock := {
  block_id : jsstring;
  metadata : option BlockMetadata;
  config_tool : jsstring
}.

(** Of a tool configuration [execute] reads the name. *)
Record ToolConfig := {
  tool_name : option jsstring
}.

(** An entry of [blockConfig.inputs]: an object with a [type], or the type
    itself. *)
Inductive InputSchema :=
  | ParamConfig (type : jsstring)
  | ParamType (type : jsstring).

(** Of a block configuration [execute] reads [tools.config.params], a
    function that may throw ([None]), and [inputs], here in the order of
    [Object.entries]. *)
Record BlockConfig := {
  tools_config_params :
    option (gmap jsstring value → option (gmap jsstring value));
  block_inputs : option (list (jsstring * InputSchema))
}.

(** The result of [executeTool]. *)
Record ToolResult := {
  success : bool;
  output : value;
  error : option jsstring
}.

(** An [Error] instance with the properties the handler reads or writes;
    a property that was never set is [VUndefined]. *)
Record ErrorObject := {
  message : jsstring;
  status : value;
  toolId : value;
  toolName : value;
  blockId : value;
  blockName : value;
  err_output : value;
  timestamp : value
}.

(** [new Error(message)]. *)
Definition new_Error (msg : jsstring) : ErrorObject :=
  {| message := msg; status := VUndefined; toolId := VUndefined;
     toolName := VUndefined; blockId := VUndefined; blockName := VUndefined;
     err_output := VUndefined; timestamp := VUndefined |}.

(** A value that is not an object: [undefined], [null], a boolean, a
    number or a string. *)
Inductive Primitive :=
  | PUndefined
  | PNull
  | PBool (b : bool)
  | PNum (n : number)
  | PStr (s : jsstring).

(** What a [catch] clause can receive: an [Error] instance, an object
    that is not one (its own properties), or a primitive. *)
Inductive Thrown :=
  | ThrownError (e : ErrorObject)
  | ThrownObject (props : list (jsstring * value))
  | ThrownPrimitive (p : Primitive).

(** [executeTool] resolves with a result, or rejects with an [Error], with
    an object that is not an [Error], or with a primitive. *)
Inductive ToolOutcome :=
  | Resolved (result : ToolResult)
  | Rejected (e : ErrorObject)
  | RejectedObject (props : list (jsstring * value))
  | RejectedPrimitive (p : Primitive).

(** The collaborators of the handler: the two registries, tool execution
    and the clock read by [new Date().toISOString()]. *)
Record Engine := {
  getTool : jsstring → option ToolConfig;
  getBlock : jsstring → option BlockConfig;
  executeTool :
    jsstring → gmap jsstring value → bool → bool → ExecutionContext → ToolOutcome;
  now_ISO : jsstring
}.

(** How [execute] ends. *)
Inductive Completion :=
  | Returned (v : value)
  | Threw (e : ErrorObject)
  | ThrewObject (props : list (jsstring * value))
  | ThrewTypeError.

Definition canHandle (block : SerializedBlock) : bool :=
  bool_decide (metadata block ≫= meta_id = Some (lit "google_vault")).

(** [block.metadata?.name || 'Unnamed Block'] *)
Definition block_display_name (block : SerializedBlock) : jsstring :=
  or_else (metadata block ≫= meta_name) (lit "Unnamed Block").

(** Lines 69-83: the parameter transformation.  The result is
    [finalInputs] and the warnings logged. *)
Definition transform_inputs (blockType : jsstring)
    (blockConfig : option BlockConfig) (inputs : gmap jsstring value)
  : gmap jsstring value * list jsstring :=
  match blockConfig ≫= tools_config_params with
  | Some params =>
      match params inputs with
      | Some transformedParams => (transformedParams ∪ inputs, [])
      | None =>
          (inputs,
           [ lit "Failed to apply parameter transformation for block type "
             ++ blockType ++ lit ":" ])
      end
  | None => (inputs, [])
  end.

Definition schema_type (inputSchema : InputSchema) : jsstring :=
  match inputSchema with
  | ParamConfig type => type
  | ParamType type => type
  end.

(** Lines 86-100: one turn of the loop over [Object.entries]. *)
Definition coerce_entry (st : gmap jsstring value * list jsstring)
    (entry : jsstring * InputSchema) : gmap jsstring value * list jsstring :=
  let '(finalInputs, log) := st in
  let '(key, inputSchema) := entry in
  match default VUndefined (finalInputs !! key) with
  | VStr s =>
      if bool_decide (0 < length (trim s))%nat then
        let inputType := schema_type inputSchema in
        if bool_decide (inputType = lit "json")
           || bool_decide (inputType = lit "array") then
          match JSON_parse (trim s) with
          | Some parsed => (<[key := parsed]> finalInputs, log)
          | None =>
              (finalInputs,
               log ++ [ lit "Failed to parse " ++ inputType ++ lit " field "
                        ++ dquote ++ key ++ dquote ++ lit ":" ])
          end
        else st
      else st
  | _ => st
  end.

(** Lines 85-101. *)
Definition coerce_inputs (blockConfig : option BlockConfig)
    (st : gmap jsstring value * list jsstring)
  : gmap jsstring value * list jsstring :=
  match blockConfig ≫= block_inputs with
  | Some entries => fold_left coerce_entry entries st
  | None => st
  end.

(** Lines 69-102: [finalInputs] as handed to tool execution. *)
Definition finalize_inputs (E : Engine) (block : SerializedBlock)
    (inputs : gmap jsstring value) : gmap jsstring value * list jsstring :=
  match metadata block ≫= meta_id with
  | Some ((_ :: _) as blockType) =>
      let blockConfig := getBlock E blockType in
      coerce_inputs blockConfig (transform_inputs blockType blockConfig inputs)
  | _ => (inputs, [])
  end.

(** Property read [v.key] on a value that is not nullish. *)
Definition member (v : value) (key : jsstring) : value :=
  match v with
  | VObj props => default VUndefined (own_prop props key)
  | _ => VUndefined
  end.

(** Property write in an object literal or spread: an existing key keeps
    its place. *)
Fixpoint obj_set (props : list (jsstring * value)) (key : jsstring) (v : value)
  : list (jsstring * value) :=
  match props with
  | [] => [(key, v)]
  | (k, old) :: rest =>
      if bool_decide (k = key) then (k, v) :: rest
      else (k, old) :: obj_set rest key v
  end.

(** [{ ...v }] *)
Definition spread (v : value) : list (jsstring * value) :=
  match v with
  | VObj props => props
  | _ => []
  end.

(** Lines 146-166: the value returned on success. *)
Definition success_value (output : value) : value :=
  let cost := if is_nullish output then VUndefined else member output (lit "cost") in
  if truthy cost then
    VObj
      (obj_set
         (obj_set
            (obj_set (spread output) (lit "cost")
               (VObj [ (lit "input", member cost (lit "input"));
                       (lit "output", member cost (lit "output"));
                       (lit "total", member cost (lit "total")) ]))
            (lit "tokens") (member cost (lit "tokens")))
         (lit "model") (member cost (lit "model")))
  else output.

(** [tool?.name || block.config.tool] *)
Definition tool_label (tool : ToolConfig) (block : SerializedBlock) : jsstring :=
  or_else (tool_name tool) (config_tool block).

(** Lines 120-143: the error built for a result with [success] false. *)
Definition failure_error (E : Engine) (tool : ToolConfig)
    (block : SerializedBlock) (result : ToolResult) : ErrorObject :=
  let errorDetails :=
    match error result with
    | Some ((_ :: _) as e) => [ enhanceCredentialError e ]
    | _ => []
    end in
  let errorMessage :=
    if bool_decide (0 < length errorDetails)%nat then join (lit " - ") errorDetails
    else lit "Block execution of " ++ tool_label tool block
         ++ lit " failed with no error message" in
  {| message := errorMessage;
     status := VUndefined;
     toolId := VStr (config_tool block);
     toolName := VStr (or_else (tool_name tool) (lit "Unknown tool"));
     blockId := VStr (block_id block);
     blockName := VStr (block_display_name block);
     err_output := if truthy (output result) then output result else VObj [];
     timestamp := VStr (now_ISO E) |}.

Definition set_message (e : ErrorObject) (msg : jsstring) : ErrorObject :=
  {| message := msg; status := status e; toolId := toolId e;
     toolName := toolName e; blockId := blockId e; blockName := blockName e;
     err_output := err_output e; timestamp := timestamp e |}.

(** Lines 177-187: the message put in place of an empty one or of the
    placeholder, given [error.status]. *)
Definition fallback_text (tool : ToolConfig) (block : SerializedBlock)
    (error_status : value) : jsstring :=
  let m0 := lit "Block execution of " ++ tool_label tool block ++ lit " failed" in
  let m1 :=
    match metadata block ≫= meta_name with
    | Some ((_ :: _) as name) => m0 ++ lit ": " ++ name
    | _ => m0
    end in
  if truthy error_status then
    m1 ++ lit " (Status: " ++ to_String error_status ++ lit ")"
  else m1.

Definition fallback_message (tool : ToolConfig) (block : SerializedBlock)
    (e : ErrorObject) : jsstring :=
  fallback_text tool block (status e).

(** Lines 167-195 on an [Error] instance: the guard of line 169
    ([error instanceof Error]) and the guard of line 190
    ([typeof error === 'object' && error !== null]) both hold. *)
Definition catch_Error (tool : ToolConfig) (block : SerializedBlock)
    (e : ErrorObject) : ErrorObject :=
  let e1 :=
    let enhancedMessage := enhanceCredentialError (message e) in
    if bool_decide (enhancedMessage ≠ message e) then set_message e enhancedMessage
    else e in
  let e2 :=
    if bool_decide (message e1 = [])
       || bool_decide (message e1 = lit "undefined (undefined)") then
      set_message e1 (fallback_message tool block e1)
    else e1 in
  {| message := message e2; status := status e2;
     toolId := if truthy (toolId e2) then toolId e2 else VStr (config_tool block);
     toolName := toolName e2; blockId := blockId e2;
     blockName :=
       if truthy (blockName e2) then blockName e2
       else VStr (block_display_name block);
     err_output := err_output e2; timestamp := timestamp e2 |}.

(** Lines 167-195 on an object that is not an [Error]: the guard of line
    169 fails, so the message is not enhanced; the guard of line 190
    holds.  [error.message === 'undefined (undefined)'] holds of that
    string only. *)
Definition catch_object (tool : ToolConfig) (block : SerializedBlock)
    (props : list (jsstring * value)) : list (jsstring * value) :=
  let error_message := default VUndefined (own_prop props (lit "message")) in
  let is_placeholder :=
    match error_message with
    | VStr s => bool_decide (s = lit "undefined (undefined)")
    | _ => false
    end in
  let props1 :=
    if negb (truthy error_message) || is_placeholder then
      obj_set props (lit "message")
        (VStr (fallback_text tool block
                 (default VUndefined (own_prop props (lit "status")))))
    else props in
  let props2 :=
    if truthy (default VUndefined (own_prop props1 (lit "toolId"))) then props1
    else obj_set props1 (lit "toolId") (VStr (config_tool block)) in
  if truthy (default VUndefined (own_prop props2 (lit "blockName"))) then props2
  else obj_set props2 (lit "blockName") (VStr (block_display_name block)).

(** Lines 167-195: the [catch] block.  On a primitive the guard of line 169
    fails and the block does not reach its [throw]: line 176 reads
    [error.message], which throws a [TypeError] on [null] and [undefined]
    and is [undefined] on a boolean, a number or a string, for which line
    187 then assigns to a property of a primitive, a [TypeError] in the
    strict code of a class body. *)
Definition on_catch (tool : ToolConfig) (block : SerializedBlock)
    (error : Thrown) : Completion :=
  match error with
  | ThrownError e => Threw (catch_Error tool block e)
  | ThrownObject props => ThrewObject (catch_object tool block props)
  | ThrownPrimitive _ => ThrewTypeError
  end.

(** The parameters handed to [executeTool]: [finalInputs] and [_context]. *)
Definition tool_params (ctx : ExecutionContext)
    (finalInputs : gmap jsstring value) : gmap jsstring value :=
  <[ lit "_context" :=
       VObj [ (lit "workflowId", workflowId ctx);
              (lit "workspaceId", workspaceId ctx);
              (lit "executionId", executionId ctx) ] ]> finalInputs.

(** Lines 120-196: what becomes of the outcome of [executeTool].  The
    [throw] of line 143 is inside the [try], so the error built for an
    unsuccessful result passes through the [catch] block too. *)
Definition settle (E : Engine) (tool : ToolConfig) (block : SerializedBlock)
    (outcome : ToolOutcome) : Completion :=
  match outcome with
  | Resolved result =>
      if negb (success result) then
        on_catch tool block (ThrownError (failure_error E tool block result))
      else Returned (success_value (output result))
  | Rejected e => on_catch tool block (ThrownError e)
  | RejectedObject props => on_catch tool block (ThrownObject props)
  | RejectedPrimitive p => on_catch tool block (ThrownPrimitive p)
  end.

(** [GoogleVaultBlockHandler.execute]: how it completes, and the warnings
    it logged. *)
Definition execute (E : Engine) (ctx : ExecutionContext)
    (block : SerializedBlock) (inputs : gmap jsstring value)
  : Completion * list jsstring :=
  match getTool E (config_tool block) with
  | None => (Threw (new_Error (lit "Tool not found: " ++ config_tool block)), [])
  | Some tool =>
      let '(finalInputs, log) := finalize_inputs E block inputs in
      (settle E tool block
         (executeTool E (config_tool block) (tool_params ctx finalInputs)
            false false ctx),
       log)
  end.

End Handler.

(** ** The matter-creation tool descriptor *)

Module VaultTool.
Section Descriptor.
Context `{NumberHost}.

(** [enhanceGoogleVaultError], imported from the Vault tool utilities: the
    descriptor passes it whatever the error body holds and uses what it
    returns as the message of the [Error]. *)
Variable enhanceGoogleVaultError : value → jsstring.

(** The parameters, as the descriptor's [params] section declares them:
    [accessToken] and [name] required, [description] optional. *)
Record GoogleVaultCreateMattersParams := {
  accessToken : jsstring;
  name : jsstring;
  description : option jsstring
}.

(** A response: its [ok] flag and what [response.json()] resolves to,
    [None] when it rejects. *)
Record Response := {
  ok : bool;
  json : option value
}.

(** How [transformResponse] settles. *)
Inductive Settled :=
  | Fulfilled (result : value)
  | ThrewError (message : jsstring)
  | ThrewTypeError
  | JsonRejected.

Record RequestConfig := {
  url : unit → jsstring;
  method : jsstring;
  headers : GoogleVaultCreateMattersParams → list (jsstring * jsstring);
  body : GoogleVaultCreateMattersParams → value
}.

Record ToolDescriptor := {
  id : jsstring;
  tool_title : jsstring;
  tool_description : jsstring;
  version : jsstring;
  oauth_required : bool;
  oauth_provider : jsstring;
  request : RequestConfig;
  transformResponse : Response → Settled
}.

Definition optional (s : option jsstring) : value :=
  match s with
  | Some x => VStr x
  | None => VUndefined
  end.

Definition createMattersTool : ToolDescriptor :=
  {| id := lit "create_matters";
     tool_title := lit "Vault Create Matter";
     tool_description := lit "Create a new matter in Google Vault";
     version := lit "1.0";
     oauth_required := true;
     oauth_provider := lit "google-vault";
     request :=
       {| url := λ _, lit "https://vault.googleapis.com/v1/matters";
          method := lit "POST";
          headers := λ params,
            [ (lit "Authorization", lit "Bearer " ++ accessToken params);
              (lit "Content-Type", lit "application/json") ];
          body := λ params,
            VObj [ (lit "name", VStr (name params));
                   (lit "description", optional (description params)) ] |};
     transformResponse := λ response,
       match json response with
       | None => JsonRejected
       | Some data =>
           if negb (ok response) then
             if is_nullish data then ThrewTypeError
             else
               let err := member data (lit "error") in
               let nested :=
                 if is_nullish err then VUndefined
                 else member err (lit "message") in
               let errorMessage :=
                 if truthy nested then nested
                 else VStr (lit "Failed to create matter") in
               ThrewError (enhanceGoogleVaultError errorMessage)
           else
             Fulfilled
               (VObj [ (lit "success", VBool true);
                       (lit "output", VObj [ (lit "matter", data) ]) ])
       end |}.

(** The nested error message of a response body, [data.error?.message]. *)
Definition nested_error_message (data : value) : value :=
  let err := member data (lit "error") in
  if is_nullish err then VUndefined else member err (lit "message").

End Descriptor.
End VaultTool.

(** ** A sample runtime

    Instances of the runtime interfaces on which the definitions evaluate:
    integer numbers printed in decimal, JSON documents without escapes or
    fractions, and dates read from ISO-8601 UTC timestamps by a runtime
    whose local zone is UTC. *)

Module Sample.

Definition print_Z (z : Z) : jsstring :=
  if (z <? 0)%Z then lit "-" ++ decimal (Z.to_N (- z)) else decimal (Z.to_N z).

(** Thousands separators, on the digits in reverse. *)
Fixpoint group_rev (digits : list N) (i : nat) : list N :=
  match digits with
  | [] => []
  | d :: rest =>
      (if (0 <? i)%nat && (i mod 3 =? 0)%nat then [44] else [])
      ++ d :: group_rev rest (S i)
  end.

Definition print_grouped (z : Z) : jsstring :=
  let body := rev (group_rev (rev (decimal (Z.to_N (Z.abs z)))) 0) in
  if (z <? 0)%Z then lit "-" ++ body else body.

#[export] Instance integers : NumberHost :=
  {| number := Z;
     number_truthy := λ z, negb (z =? 0)%Z;
     number_toString := print_Z;
     number_toLocaleString := print_grouped;
     number_of_Z := λ z, z |}.

#[export] Instance ascii : StringHost := ascii_host.

Definition is_json_space (c : N) : bool :=
  (c =? 32) || (c =? 9) || (c =? 10) || (c =? 13).

Fixpoint skip_ws (s : list N) : list N :=
  match s with
  | c :: s' => if is_json_space c then skip_ws s' else s
  | [] => []
  end.

Definition is_digit (c : N) : bool := (48 <=? c) && (c <=? 57).

Fixpoint take_digits (s : list N) (acc : Z) : Z * list N :=
  match s with
  | c :: s' =>
      if is_digit c then take_digits s' (10 * acc + Z.of_N (c - 48))%Z
      else (acc, s)
  | [] => (acc, [])
  end.

Fixpoint take_string (s acc : list N) : option (list N * list N) :=
  match s with
  | [] => None
  | c :: s' =>
      if c =? 34 then Some (rev acc, s')
      else if (c =? 92) || (c <? 32) then None
      else take_string s' (c :: acc)
  end.

Definition strip (prefix s : list N) : option (list N) :=
  if starts_with s prefix then Some (drop (length prefix) s) else None.

Fixpoint parse_elems (p : list N → option (value * list N)) (n : nat)
    (s : list N) : option (list value * list N) :=
  match n with
  | O => None
  | S n' =>
      '(v, r) ← p s;
      match skip_ws r with
      | 44 :: r' => '(vs, r'') ← parse_elems p n' r'; Some (v :: vs, r'')
      | 93 :: r' => Some ([v], r')
      | _ => None
      end
  end.

Fixpoint parse_members (p : list N → option (value * list N)) (n : nat)
    (s : list N) : option (list (jsstring * value) * list N) :=
  match n with
  | O => None
  | S n' =>
      match skip_ws s with
      | 34 :: r =>
          '(k, r1) ← take_string r [];
          match skip_ws r1 with
          | 58 :: r2 =>
              '(v, r3) ← p r2;
              match skip_ws r3 with
              | 44 :: r4 =>
                  '(ms, r5) ← parse_members p n' r4;
                  Some ((k, v) :: ms, r5)
              | 125 :: r4 => Some ([(k, v)], r4)
              | _ => None
              end
          | _ => None
          end
      | _ => None
      end
  end.

Fixpoint parse_value (fuel : nat) (s : list N) : option (value * list N) :=
  match fuel with
  | O => None
  | S fuel' =>
      match skip_ws s with
      | [] => None
      | c :: r =>
          if c =? 123 then
            match skip_ws r with
            | 125 :: r' => Some (VObj [], r')
            | _ =>
                '(ms, r') ← parse_members (parse_value fuel') (length r) r;
                Some (VObj (fold_left (λ o kv, obj_set o kv.1 kv.2) ms []), r')
            end
          else if c =? 91 then
            match skip_ws r with
            | 93 :: r' => Some (VArr [], r')
            | _ =>
                '(vs, r') ← parse_elems (parse_value fuel') (length r) r;
                Some (VArr vs, r')
            end
          else if c =? 34 then
            '(str, r') ← take_string r []; Some (VStr str, r')
          else if is_digit c then
            let '(z, r') := take_digits (c :: r) 0%Z in Some (VNum z, r')
          else if c =? 45 then
            match r with
            | d :: _ =>
                if is_digit d then
                  let '(z, r') := take_digits r 0%Z in Some (VNum (- z)%Z, r')
                else None
            | [] => None
            end
          else
            match strip (lit "true") (c :: r), strip (lit "false") (c :: r),
                  strip (lit "null") (c :: r) with
            | Some r', _, _ => Some (VBool true, r')
            | _, Some r', _ => Some (VBool false, r')
            | _, _, Some r' => Some (VNull, r')
            | _, _, _ => None
            end
      end
  end.

#[export] Instance json : JsonHost :=
  {| JSON_parse := λ s,
       '(v, r) ← parse_value (S (length s)) s;
       match skip_ws r with
       | [] => Some v
       | _ => None
       end |}.

(** A calendar day: year, month, day. *)
Definition digit (c : N) : option Z :=
  if is_digit c then Some (Z.of_N (c - 48)) else None.

Definition parse_iso (s : list N) : option (Z * Z * Z) :=
  match s with
  | [y1; y2; y3; y4; 45; m1; m2; 45; d1; d2; 84; h1; h2; 58; n1; n2; 58; s1; s2; 90] =>
      a ← digit y1; b ← digit y2; c ← digit y3; d ← digit y4;
      e ← digit m1; f ← digit m2; g ← digit d1; h ← digit d2;
      _ ← digit h1; _ ← digit h2; _ ← digit n1; _ ← digit n2;
      _ ← digit s1; _ ← digit s2;
      let month := (10 * e + f)%Z in
      let day := (10 * g + h)%Z in
      if ((1 <=? month) && (month <=? 12) && (1 <=? day) && (day <=? 31))%Z%bool
      then Some ((1000 * a + 100 * b + 10 * c + d)%Z, month, day)
      else None
  | _ => None
  end.

Definition MONTHS : list jsstring :=
  [ lit "Jan"; lit "Feb"; lit "Mar"; lit "Apr"; lit "May"; lit "Jun";
    lit "Jul"; lit "Aug"; lit "Sep"; lit "Oct"; lit "Nov"; lit "Dec" ].

#[export] Instance dates : DateHost :=
  {| date := option (Z * Z * Z);
     new_Date := λ v, match v with VStr s => parse_iso s | _ => None end;
     date_valid := λ d, bool_decide (is_Some d);
     format_valid := λ d pattern,
       match d with
       | Some (y, m, day) =>
           if bool_decide (pattern = lit "MMM d, yyyy") then
             default [] (MONTHS !! Z.to_nat (m - 1))
             ++ lit " " ++ print_Z day ++ lit ", " ++ print_Z y
           else []
       | None => []
       end |}.

(** A runtime in a time zone: [Date] holds the minutes since the epoch
    that an ISO-8601 UTC timestamp denotes, and date-fns prints the
    calendar day of that instant in local time, which is [offset] minutes
    ahead of UTC. *)
Definition days_from_civil (y m d : Z) : Z :=
  let y' := if (m <=? 2)%Z then (y - 1)%Z else y in
  let era := (y' / 400)%Z in
  let yoe := (y' - era * 400)%Z in
  let mp := if (m <=? 2)%Z then (m + 9)%Z else (m - 3)%Z in
  let doy := ((153 * mp + 2) / 5 + d - 1)%Z in
  let doe := (yoe * 365 + yoe / 4 - yoe / 100 + doy)%Z in
  (era * 146097 + doe - 719468)%Z.

Definition civil_from_days (days : Z) : Z * Z * Z :=
  let z := (days + 719468)%Z in
  let era := (z / 146097)%Z in
  let doe := (z - era * 146097)%Z in
  let yoe := ((doe - doe / 1460 + doe / 36524 - doe / 146096) / 365)%Z in
  let doy := (doe - (365 * yoe + yoe / 4 - yoe / 100))%Z in
  let mp := ((5 * doy + 2) / 153)%Z in
  let d := (doy - (153 * mp + 2) / 5 + 1)%Z in
  let m := if (mp <? 10)%Z then (mp + 3)%Z else (mp - 9)%Z in
  (if (m <=? 2)%Z then (yoe + era * 400 + 1)%Z else (yoe + era * 400)%Z, m, d).

Definition parse_instant (s : list N) : option Z :=
  match s with
  | [y1; y2; y3; y4; 45; m1; m2; 45; d1; d2; 84; h1; h2; 58; n1; n2; 58; s1; s2; 90] =>
      a ← digit y1; b ← digit y2; c ← digit y3; d ← digit y4;
      e ← digit m1; f ← digit m2; g ← digit d1; h ← digit d2;
      i ← digit h1; j ← digit h2; k ← digit n1; l ← digit n2;
      _ ← digit s1; _ ← digit s2;
      let month := (10 * e + f)%Z in
      let day := (10 * g + h)%Z in
      let hour := (10 * i + j)%Z in
      let minute := (10 * k + l)%Z in
      if ((1 <=? month) && (month <=? 12) && (1 <=? day) && (day <=? 31)
          && (hour <? 24) && (minute <? 60))%Z%bool
      then Some ((days_from_civil (1000 * a + 100 * b + 10 * c + d) month day
                  * 1440 + hour * 60 + minute)%Z)
      else None
  | _ => None
  end.

Definition local_day (offset instant : Z) : Z := ((instant + offset) / 1440)%Z.

Definition print_day (ymd : Z * Z * Z) : jsstring :=
  let '(y, m, d) := ymd in
  default [] (MONTHS !! Z.to_nat (m - 1))
  ++ lit " " ++ print_Z d ++ lit ", " ++ print_Z y.

Definition dates_at `{NumberHost} (offset : Z) : DateHost :=
  {| date := option Z;
     new_Date := λ v, match v with VStr s => parse_instant s | _ => None end;
     date_valid := λ d, bool_decide (is_Some d);
     format_valid := λ d pattern,
       match d with
       | Some instant =>
           if bool_decide (pattern = lit "MMM d, yyyy") then
             print_day (civil_from_days (local_day offset instant))
           else []
       | None => []
       end |}.

(** A runtime whose default locale writes numbers with Arabic-Indic
    digits, U+0660 to U+0669, and the separator U+066C. *)
Definition eastern_digit (c : N) : N :=
  if is_digit c then c + 1584 else if c =? 44 then 1644 else c.

Definition eastern : NumberHost :=
  {| number := Z;
     number_truthy := λ z, negb (z =? 0)%Z;
     number_toString := print_Z;
     number_toLocaleString := λ z, eastern_digit <$> print_grouped z;
     number_of_Z := λ z, z |}.

(** A block wired to the matter-creation tool, and an engine whose tool
    execution settles in a given way. *)
Definition vault_block : SerializedBlock :=
  {| block_id := lit "block-1";
     metadata := Some {| meta_id := Some (lit "google_vault");
                         meta_name := Some (lit "Vault") |};
     config_tool := lit "create_matters" |}.

Definition run_context : ExecutionContext :=
  {| workflowId := VStr (lit "wf-1");
     workspaceId := VStr (lit "ws-1");
     executionId := VStr (lit "ex-1") |}.

Definition engine (config : option BlockConfig) (outcome : ToolOutcome)
  : Engine :=
  {| getTool := λ _, Some {| tool_name := Some (lit "Vault Create Matter") |};
     getBlock := λ _, config;
     executeTool := λ _ _ _ _ _, outcome;
     now_ISO := lit "2024-03-05T00:00:00.000Z" |}.

Definition failed (err : option jsstring) : ToolOutcome :=
  Resolved {| success := false; output := VUndefined; error := err |}.

(** An engine in which no tool is registered. *)
Definition unregistered : Engine :=
  {| getTool := λ _, None;
     getBlock := λ _, None;
     executeTool := λ _ _ _ _ _, failed None;
     now_ISO := lit "2024-03-05T00:00:00.000Z" |}.

(** Tool execution that rejects with an [Error] of a given message and
    status, and one that succeeds with a given output. *)
Definition rejected (msg : jsstring) (st : value) : ToolOutcome :=
  Rejected {| message := msg; status := st; toolId := VUndefined;
              toolName := VUndefined; blockId := VUndefined;
              blockName := VStr (lit "Intake"); err_output := VUndefined;
              timestamp := VUndefined |}.

Definition succeeded (out : value) : ToolOutcome :=
  Resolved {| success := true; output := out; error := None |}.

End Sample.

(** * Properties *)

(** ** Strings *)

Lemma starts_with_prefix (s t : list N) :
  starts_with s t = true ↔ ∃ post, s = t ++ post.
Proof.
  revert s. induction t as [|c t IH]; intros s; simpl.
  - split; [eauto | done].
  - destruct s as [|d s].
    + split; [done | intros [post Hp]; discriminate].
    + rewrite andb_true_iff, N.eqb_eq, IH. split.
      * intros [-> [post ->]]. by exists post.
      * intros [post Hp]. injection Hp as -> ->. eauto.
Qed.

Lemma includes_contains (s t : list N) :
  includes s t = true ↔ contains s t.
Proof.
  unfold contains. induction s as [|d s IH]; simpl.
  - rewrite orb_false_r, starts_with_prefix. split.
    + intros [post Hp]. by exists [], post.
    + intros (pre & post & Hp). symmetry in Hp.
      apply app_eq_nil in Hp as [-> Hp]. eauto.
  - rewrite orb_true_iff, starts_with_prefix, IH. split.
    + intros [[post Hp] | (pre & post & Hp)].
      * by exists [], post.
      * exists (d :: pre), post. by rewrite Hp.
    + intros (pre & post & Hp). destruct pre as [|e pre].
      * left. by exists post.
      * right. injection Hp as _ Hp. eauto.
Qed.

Lemma includes_not_contains (s t : list N) :
  includes s t = false ↔ ¬ contains s t.
Proof. rewrite <- includes_contains. by destruct (includes s t). Qed.

Lemma is_ascii_forallb (s : list N) :
  forallb (λ c, c <? 128) s = true → Forall is_ascii s.
Proof.
  rewrite forallb_forall, Forall_forall. intros Hs c Hc.
  apply N.ltb_lt, Hs. by apply list_elem_of_In.
Qed.

Lemma ascii_host_lowers : @LowersAscii ascii_host.
Proof. intros s _. reflexivity. Qed.

(** Evaluating the lower-casing of an ASCII literal. *)
Ltac lower_ascii HL :=
  rewrite HL by (apply is_ascii_forallb; vm_compute; reflexivity).

(** ** Credential errors *)

Section CredentialErrorFacts.
Context `{StringHost}.

Lemma isCredentialRefreshError_trigger (s : jsstring) :
  isCredentialRefreshError s = true ↔ reauth_trigger (toLowerCase s).
Proof.
  unfold isCredentialRefreshError, reauth_trigger.
  rewrite !orb_true_iff, !andb_true_iff, !includes_contains. tauto.
Qed.

Lemma enhance_triggered (s : jsstring) :
  isCredentialRefreshError s = true → enhanceCredentialError s = REMEDIATION.
Proof. unfold enhanceCredentialError. by intros ->. Qed.

Lemma enhance_untouched (s : jsstring) :
  isCredentialRefreshError s = false → enhanceCredentialError s = s.
Proof. unfold enhanceCredentialError. by intros ->. Qed.

(** The remediation message holds none of the trigger substrings. *)
Lemma remediation_no_trigger :
  LowersAscii → isCredentialRefreshError REMEDIATION = false.
Proof.
  intros HL. unfold isCredentialRefreshError. lower_ascii HL.
  vm_compute. reflexivity.
Qed.

Lemma placeholder_no_trigger :
  LowersAscii → isCredentialRefreshError (lit "undefined (undefined)") = false.
Proof.
  intros HL. unfold isCredentialRefreshError. lower_ascii HL.
  vm_compute. reflexivity.
Qed.

Lemma enhance_idempotent (s : jsstring) :
  LowersAscii →
  enhanceCredentialError (enhanceCredentialError s) = enhanceCredentialError s.
Proof.
  intros HL. destruct (isCredentialRefreshError s) eqn:Hs.
  - rewrite (enhance_triggered s Hs).
    apply enhance_untouched, remediation_no_trigger, HL.
  - by rewrite !(enhance_untouched s Hs).
Qed.

Lemma enhance_nonempty (s : jsstring) :
  s ≠ [] → enhanceCredentialError s ≠ [].
Proof.
  intros Hs. unfold enhanceCredentialError.
  destruct (isCredentialRefreshError s); [discriminate | done].
Qed.

End CredentialErrorFacts.

(** C1, as amended.  [enhanceCredentialError] substitutes the fixed
    remediation message, which mentions "Reauthentication policy", exactly
    when the lower-cased input contains "invalid_rapt", "reauth related
    error", both "invalid_grant" and "rapt", "failed to refresh token", or
    both "failed to fetch access token" and "401"; every other string, such
    as "rate limit exceeded", is returned unchanged.  The result therefore
    is the remediation message if and only if a trigger is present or the
    input already is that message. *)
Theorem enhanceCredentialError_cases `{StringHost} (s : jsstring) :
  LowersAscii →
  (isCredentialRefreshError s = true ↔ reauth_trigger (toLowerCase s))
  ∧ (reauth_trigger (toLowerCase s) → enhanceCredentialError s = REMEDIATION)
  ∧ (¬ reauth_trigger (toLowerCase s) → enhanceCredentialError s = s)
  ∧ (enhanceCredentialError s = REMEDIATION
     ↔ reauth_trigger (toLowerCase s) ∨ s = REMEDIATION)
  ∧ contains REMEDIATION (lit "Reauthentication policy")
  ∧ enhanceCredentialError (lit "rate limit exceeded")
    = lit "rate limit exceeded".
Proof.
  intros HL. pose proof (isCredentialRefreshError_trigger s) as Hiff.
  split; [exact Hiff |]. split; [| split; [| split; [| split]]].
  - intros Ht. by apply enhance_triggered, Hiff.
  - intros Ht. apply enhance_untouched.
    destruct (isCredentialRefreshError s); [by destruct Ht; apply Hiff | done].
  - unfold enhanceCredentialError. rewrite <- Hiff.
    destruct (isCredentialRefreshError s); [tauto |].
    split; [by right | by intros [? | ?]].
  - apply includes_contains. vm_compute. reflexivity.
  - apply enhance_untouched. unfold isCredentialRefreshError.
    lower_ascii HL. vm_compute. reflexivity.
Qed.

Lemma enhanceCredentialError_cases_witness :
  let s := lit "Error: INVALID_RAPT, please sign in again" in
  @enhanceCredentialError ascii_host s = REMEDIATION
  ∧ @isCredentialRefreshError ascii_host s = true.
Proof.
  intros s.
  destruct (@enhanceCredentialError_cases ascii_host s ascii_host_lowers)
    as (Hiff & Hyes & _).
  assert (Ht : @isCredentialRefreshError ascii_host s = true)
    by (vm_compute; reflexivity).
  split; [apply Hyes, Hiff, Ht | exact Ht].
Defined.

(** C1 as stated fails at the remediation message itself: it comes back
    as the remediation message although its lower-casing holds no
    trigger. *)
Lemma enhanceCredentialError_iff_fails :
  @enhanceCredentialError ascii_host REMEDIATION = REMEDIATION
  ∧ ¬ reauth_trigger (@toLowerCase ascii_host REMEDIATION)
  ∧ ¬ (∀ (host : StringHost), @LowersAscii host → ∀ s : jsstring,
         @enhanceCredentialError host s = REMEDIATION
         ↔ reauth_trigger (@toLowerCase host s)).
Proof.
  assert (Hno : ¬ reauth_trigger (@toLowerCase ascii_host REMEDIATION)).
  { rewrite <- (@isCredentialRefreshError_trigger ascii_host).
    rewrite (@remediation_no_trigger ascii_host ascii_host_lowers). done. }
  assert (Hfix : @enhanceCredentialError ascii_host REMEDIATION = REMEDIATION).
  { apply enhance_untouched, remediation_no_trigger, ascii_host_lowers. }
  split; [exact Hfix |]. split; [exact Hno |].
  intros Hall. apply Hno.
  by apply (Hall ascii_host ascii_host_lowers REMEDIATION).
Qed.

(** ** The block handler *)

Section HandlerFacts.
Context `{StringHost} `{NumberHost} `{!JsonHost}.

Lemma set_message_message (e : ErrorObject) (m : jsstring) :
  message (set_message e m) = m.
Proof. reflexivity. Qed.

(** The [catch] block re-enhances the message, then replaces an empty one
    or the placeholder. *)
Lemma catch_Error_message (tool : ToolConfig) (block : SerializedBlock)
    (e : ErrorObject) :
  let m := enhanceCredentialError (message e) in
  message (catch_Error tool block e)
  = if bool_decide (m = []) || bool_decide (m = lit "undefined (undefined)")
    then fallback_message tool block
           (if bool_decide (m ≠ message e) then set_message e m else e)
    else m.
Proof.
  intros m. unfold catch_Error. fold m. cbn [message].
  assert (Hm : message (if bool_decide (m ≠ message e)
                        then set_message e m else e) = m).
  { case_bool_decide as Hne; [done | by symmetry]. }
  rewrite Hm. by destruct (_ || _).
Qed.

Lemma catch_Error_keeps (tool : ToolConfig) (block : SerializedBlock)
    (e : ErrorObject) :
  status (catch_Error tool block e) = status e
  ∧ toolName (catch_Error tool block e) = toolName e
  ∧ blockId (catch_Error tool block e) = blockId e
  ∧ err_output (catch_Error tool block e) = err_output e
  ∧ timestamp (catch_Error tool block e) = timestamp e
  ∧ toolId (catch_Error tool block e)
    = (if truthy (toolId e) then toolId e else VStr (config_tool block))
  ∧ blockName (catch_Error tool block e)
    = (if truthy (blockName e) then blockName e
       else VStr (block_display_name block)).
Proof.
  unfold catch_Error.
  destruct (bool_decide (enhanceCredentialError (message e) ≠ message e));
    cbn [message set_message];
    destruct (_ || _); cbn; done.
Qed.

Lemma failure_error_message_some (E : Engine) (tool : ToolConfig)
    (block : SerializedBlock) (result : ToolResult) (err : jsstring) :
  error result = Some err → err ≠ [] →
  message (failure_error E tool block result) = enhanceCredentialError err.
Proof.
  intros Herr Hne. unfold failure_error. cbn [message]. rewrite Herr.
  by destruct err.
Qed.

Lemma failure_error_message_none (E : Engine) (tool : ToolConfig)
    (block : SerializedBlock) (result : ToolResult) :
  error result = None ∨ error result = Some [] →
  message (failure_error E tool block result)
  = lit "Block execution of " ++ tool_label tool block
    ++ lit " failed with no error message".
Proof.
  intros Herr. unfold failure_error. cbn [message].
  by destruct Herr as [-> | ->].
Qed.

Lemma remediation_not_placeholder :
  REMEDIATION ≠ lit "undefined (undefined)".
Proof. discriminate. Qed.

(** The message with which an unsuccessful result is raised. *)
Lemma raised_message (E : Engine) (tool : ToolConfig)
    (block : SerializedBlock) (result : ToolResult) :
  LowersAscii →
  let raised := catch_Error tool block (failure_error E tool block result) in
  (∀ err, error result = Some err → err ≠ [] →
     err ≠ lit "undefined (undefined)" →
     message raised = enhanceCredentialError err)
  ∧ (error result = Some (lit "undefined (undefined)") →
     message raised
     = fallback_message tool block (failure_error E tool block result))
  ∧ (error result = None ∨ error result = Some [] →
     message raised
     = enhanceCredentialError
         (lit "Block execution of " ++ tool_label tool block
          ++ lit " failed with no error message")).
Proof.
  intros HL raised. unfold raised. rewrite catch_Error_message. cbn zeta.
  split; [| split].
  - intros err Herr Hne Hph.
    rewrite (failure_error_message_some E tool block result err Herr Hne).
    rewrite enhance_idempotent by done.
    rewrite bool_decide_eq_false_2 by (by apply enhance_nonempty).
    rewrite bool_decide_eq_false_2; [done |].
    unfold enhanceCredentialError.
    destruct (isCredentialRefreshError err);
      [apply remediation_not_placeholder | done].
  - intros Herr.
    rewrite (failure_error_message_some E tool block result _ Herr)
      by discriminate.
    rewrite !(enhance_untouched _ (placeholder_no_trigger HL)).
    rewrite (bool_decide_eq_true_2 (_ = lit "undefined (undefined)")) by done.
    rewrite orb_true_r.
    rewrite bool_decide_eq_false_2; [done |]. by intros Hne; apply Hne.
  - intros Hnone.
    rewrite (failure_error_message_none E tool block result Hnone).
    rewrite bool_decide_eq_false_2 by (apply enhance_nonempty; discriminate).
    rewrite bool_decide_eq_false_2; [done |].
    unfold enhanceCredentialError.
    destruct (isCredentialRefreshError _);
      [apply remediation_not_placeholder | discriminate].
Qed.

Lemma execute_settles (E : Engine) (ctx : ExecutionContext)
    (block : SerializedBlock) (inputs : gmap jsstring value)
    (tool : ToolConfig) :
  getTool E (config_tool block) = Some tool →
  (execute E ctx block inputs).1
  = settle E tool block
      (executeTool E (config_tool block)
         (tool_params ctx (finalize_inputs E block inputs).1) false false ctx).
Proof.
  intros Htool. unfold execute. rewrite Htool.
  by destruct (finalize_inputs E block inputs).
Qed.

End HandlerFacts.

(** C2, as amended.  When [executeTool] resolves with [success] false,
    [execute] raises an error that carries [toolId] (the block's configured
    tool), [toolName], [blockId], [blockName], an output snapshot and a
    timestamp.  Its message is the result's error string passed through
    credential-error enhancement (the remediation message for "failed to
    refresh token") unless that string is the placeholder
    "undefined (undefined)", which the [catch] block replaces by a
    "Block execution of ... failed" message; for a result without an error
    string, or with an empty one, it is the default no-error-message
    string, itself passed through the enhancement. *)
Theorem execute_unsuccessful_result `{StringHost} `{NumberHost} `{!JsonHost}
    (E : Engine) (ctx : ExecutionContext) (block : SerializedBlock)
    (inputs : gmap jsstring value) (tool : ToolConfig) (result : ToolResult) :
  LowersAscii →
  getTool E (config_tool block) = Some tool →
  executeTool E (config_tool block)
    (tool_params ctx (finalize_inputs E block inputs).1) false false ctx
  = Resolved result →
  success result = false →
  ∃ e : ErrorObject,
    (execute E ctx block inputs).1 = Threw e
    ∧ toolId e = VStr (config_tool block)
    ∧ toolName e = VStr (or_else (tool_name tool) (lit "Unknown tool"))
    ∧ blockId e = VStr (block_id block)
    ∧ blockName e = VStr (block_display_name block)
    ∧ err_output e
      = (if truthy (output result) then output result else VObj [])
    ∧ timestamp e = VStr (now_ISO E)
    ∧ (∀ err, error result = Some err → err ≠ [] →
         err ≠ lit "undefined (undefined)" →
         message e = enhanceCredentialError err)
    ∧ (error result = Some (lit "failed to refresh token") →
       message e = REMEDIATION)
    ∧ (error result = Some (lit "undefined (undefined)") →
       message e
       = fallback_message tool block (failure_error E tool block result))
    ∧ (error result = None ∨ error result = Some [] →
       message e
       = enhanceCredentialError
           (lit "Block execution of " ++ tool_label tool block
            ++ lit " failed with no error message")).
Proof.
  intros HL Htool Hrun Hfail.
  exists (catch_Error tool block (failure_error E tool block result)).
  destruct (catch_Error_keeps tool block (failure_error E tool block result))
    as (_ & Hname & Hid & Hout & Htime & Htool_id & Hblock).
  destruct (raised_message E tool block result HL) as (Hsome & Hph & Hnone).
  split.
  { rewrite (execute_settles E ctx block inputs tool Htool), Hrun.
    unfold settle. by rewrite Hfail. }
  split. { rewrite Htool_id. cbn. by destruct (negb _). }
  split; [by rewrite Hname |]. split; [by rewrite Hid |].
  split. { rewrite Hblock. cbn. by destruct (negb _). }
  split; [by rewrite Hout |]. split; [by rewrite Htime |].
  split; [exact Hsome |]. split; [| split; [exact Hph | exact Hnone]].
  intros Herr. rewrite (Hsome _ Herr) by discriminate.
  apply enhance_triggered. unfold isCredentialRefreshError.
  lower_ascii HL. vm_compute. reflexivity.
Qed.

Section HandlerEvaluation.
Import Sample.

Lemma execute_unsuccessful_result_witness :
  ∃ e : ErrorObject,
    (execute
       (Sample.engine None (Sample.failed (Some (lit "failed to refresh token"))))
       Sample.run_context Sample.vault_block ∅).1 = Threw e
    ∧ toolId e = VStr (lit "create_matters")
    ∧ message e = REMEDIATION.
Proof.
  destruct (execute_unsuccessful_result
              (Sample.engine None
                 (Sample.failed (Some (lit "failed to refresh token"))))
              Sample.run_context Sample.vault_block ∅
              {| tool_name := Some (lit "Vault Create Matter") |}
              {| success := false; output := VUndefined;
                 error := Some (lit "failed to refresh token") |}
              ascii_host_lowers eq_refl eq_refl eq_refl)
    as (e & Hrun & Hid & _ & _ & _ & _ & _ & _ & Hmsg & _).
  exists e. split; [exact Hrun |]. split; [exact Hid |]. by apply Hmsg.
Defined.

(** C2 as stated fails on the error string "undefined (undefined)": the
    raised message is not that string passed through the enhancement. *)
Lemma execute_placeholder_rewritten :
  ∃ e : ErrorObject,
    (execute
       (Sample.engine None (Sample.failed (Some (lit "undefined (undefined)"))))
       Sample.run_context Sample.vault_block ∅).1 = Threw e
    ∧ message e = lit "Block execution of Vault Create Matter failed: Vault"
    ∧ message e ≠ enhanceCredentialError (lit "undefined (undefined)").
Proof.
  eexists. split; [vm_compute; reflexivity |].
  split; [vm_compute; reflexivity | by vm_compute].
Qed.

End HandlerEvaluation.

(** C9.  [enhanceCredentialError] is idempotent: the remediation message
    holds none of the trigger substrings, so an enhanced message passes
    through unchanged; in particular the [catch] block's second
    enhancement leaves the message of an error built from an unsuccessful
    result as it is. *)
Theorem enhanceCredentialError_idempotent `{StringHost} `{NumberHost}
    `{!JsonHost} :
  LowersAscii →
  (∀ s : jsstring,
     enhanceCredentialError (enhanceCredentialError s)
     = enhanceCredentialError s)
  ∧ isCredentialRefreshError REMEDIATION = false
  ∧ enhanceCredentialError REMEDIATION = REMEDIATION
  ∧ (∀ (E : Engine) tool block result err,
       error result = Some err → err ≠ [] →
       enhanceCredentialError (message (failure_error E tool block result))
       = message (failure_error E tool block result)).
Proof.
  intros HL. split; [by intros s; apply enhance_idempotent |].
  split; [by apply remediation_no_trigger |].
  split; [by apply enhance_untouched, remediation_no_trigger |].
  intros E tool block result err Herr Hne.
  rewrite (failure_error_message_some E tool block result err Herr Hne).
  by apply enhance_idempotent.
Qed.

Lemma enhanceCredentialError_idempotent_witness :
  let s := lit "Failed to refresh token" in
  @enhanceCredentialError ascii_host (@enhanceCredentialError ascii_host s)
  = @enhanceCredentialError ascii_host s.
Proof.
  intros s.
  exact (proj1 (@enhanceCredentialError_idempotent ascii_host Sample.integers
                  Sample.json ascii_host_lowers) s).
Defined.

(** ** Input finalization *)

Section FinalizationFacts.
Context `{StringHost} `{NumberHost} `{!JsonHost}.

(** The coerced value of a string under a structured schema type. *)
Lemma coerce_entry_at (m : gmap jsstring value) (log : list jsstring)
    (key : jsstring) (sch : InputSchema) (s : jsstring) :
  JSON_parse [] = None →
  schema_type sch = lit "json" ∨ schema_type sch = lit "array" →
  m !! key = Some (VStr s) →
  (coerce_entry (m, log) (key, sch)).1 !! key
  = Some (match JSON_parse (trim s) with
          | Some parsed => parsed
          | None => VStr s
          end).
Proof.
  intros Hempty Hty Hs. unfold coerce_entry. rewrite Hs.
  change (default VUndefined (Some (VStr s))) with (VStr s). cbv beta iota zeta.
  destruct (bool_decide (0 < length (trim s))%nat) eqn:Hlen.
  - assert (Hj : bool_decide (schema_type sch = lit "json")
                 || bool_decide (schema_type sch = lit "array") = true).
    { apply orb_true_iff. destruct Hty as [Hty | Hty];
        [left | right]; by apply bool_decide_eq_true_2. }
    rewrite Hj. destruct (JSON_parse (trim s)); cbn [fst].
    + by rewrite lookup_insert_eq.
    + done.
  - apply bool_decide_eq_false_1 in Hlen.
    destruct (trim s) as [|c t] eqn:Ht; [| cbn in Hlen; lia].
    by rewrite Hempty.
Qed.

(** An entry for another key leaves [key] alone. *)
Lemma coerce_entry_other (st : gmap jsstring value * list jsstring)
    (entry : jsstring * InputSchema) (key : jsstring) :
  entry.1 ≠ key → (coerce_entry st entry).1 !! key = st.1 !! key.
Proof.
  destruct st as [m log], entry as [k sch]. cbn. intros Hne.
  destruct (default VUndefined (m !! k)); try done.
  case_bool_decide; [| done].
  destruct (_ || _); [| done].
  destruct (JSON_parse _); cbn; [by rewrite lookup_insert_ne | done].
Qed.

Lemma coerce_fold_other (entries : list (jsstring * InputSchema))
    (st : gmap jsstring value * list jsstring) (key : jsstring) :
  key ∉ entries.*1 →
  (fold_left coerce_entry entries st).1 !! key = st.1 !! key.
Proof.
  revert st. induction entries as [|entry entries IH]; intros st Hnot; [done |].
  cbn in *. apply not_elem_of_cons in Hnot as [Hne Hnot].
  rewrite IH by done. by apply coerce_entry_other.
Qed.

(** The loop with keys that are pairwise distinct, as the keys of an
    object are: the entry of [key] decides the final value at [key]. *)
Lemma coerce_fold_at (entries : list (jsstring * InputSchema))
    (m : gmap jsstring value) (log : list jsstring)
    (key : jsstring) (sch : InputSchema) (s : jsstring) :
  JSON_parse [] = None →
  NoDup entries.*1 → (key, sch) ∈ entries →
  schema_type sch = lit "json" ∨ schema_type sch = lit "array" →
  m !! key = Some (VStr s) →
  (fold_left coerce_entry entries (m, log)).1 !! key
  = Some (match JSON_parse (trim s) with
          | Some parsed => parsed
          | None => VStr s
          end).
Proof.
  intros Hempty Hnodup Hin Hty Hs.
  apply list_elem_of_split in Hin as (before & after & ->).
  rewrite fmap_app, fmap_cons in Hnodup. cbn in Hnodup.
  apply NoDup_app in Hnodup as (_ & Hsep & Hafter).
  apply NoDup_cons in Hafter as [Hafter _].
  assert (Hbefore : key ∉ before.*1).
  { intros Hk. apply (Hsep key Hk). by left. }
  rewrite fold_left_app. cbn [fold_left].
  rewrite coerce_fold_other by done.
  destruct (fold_left coerce_entry before (m, log)) as [m' log'] eqn:Hfold.
  apply coerce_entry_at; [done | done |].
  change m' with (m', log').1. rewrite <- Hfold.
  by rewrite coerce_fold_other.
Qed.




Lemma finalize_inputs_typed (E : Engine) (block : SerializedBlock)
    (inputs : gmap jsstring value) (blockType : jsstring) :
  metadata block ≫= meta_id = Some blockType → blockType ≠ [] →
  finalize_inputs E block inputs
  = coerce_inputs (getBlock E blockType)
      (transform_inputs blockType (getBlock E blockType) inputs).
Proof.
  intros Hmeta Hne. unfold finalize_inputs. rewrite Hmeta.
  by destruct blockType.
Qed.

End FinalizationFacts.

(** C3.  For an input field whose declared schema type is "json" or
    "array" and whose supplied value is a string, the finalized inputs hold
    the value [JSON.parse] gives for the trimmed string when it parses (so
    the text [{"a":1}] becomes the object with [a] equal to 1) and the
    original string when it does not (as for [{a:]); the step only logs,
    and [execute] goes on to hand the finalized inputs to tool execution. *)
Theorem structured_inputs_are_parsed `{StringHost} `{NumberHost} `{!JsonHost}
    (E : Engine) (ctx : ExecutionContext) (block : SerializedBlock)
    (inputs : gmap jsstring value) (blockType : jsstring) (config : BlockConfig)
    (entries : list (jsstring * InputSchema))
    (key : jsstring) (sch : InputSchema) (s : jsstring) :
  JSON_parse [] = None →
  metadata block ≫= meta_id = Some blockType → blockType ≠ [] →
  getBlock E blockType = Some config →
  block_inputs config = Some entries →
  NoDup entries.*1 → (key, sch) ∈ entries →
  schema_type sch = lit "json" ∨ schema_type sch = lit "array" →
  (transform_inputs blockType (Some config) inputs).1 !! key = Some (VStr s) →
  let final := (finalize_inputs E block inputs).1 in
  let a_is_1 := lit "{" ++ dquote ++ lit "a" ++ dquote ++ lit ":1}" in
  (∀ parsed, JSON_parse (trim s) = Some parsed → final !! key = Some parsed)
  ∧ (JSON_parse (trim s) = None → final !! key = Some (VStr s))
  ∧ (s = a_is_1 →
     JSON_parse a_is_1 = Some (VObj [ (lit "a", VNum (number_of_Z 1)) ]) →
     final !! key = Some (VObj [ (lit "a", VNum (number_of_Z 1)) ]))
  ∧ (s = lit "{a:" → JSON_parse (lit "{a:") = None →
     final !! key = Some (VStr (lit "{a:")))
  ∧ (∀ tool, getTool E (config_tool block) = Some tool →
       (execute E ctx block inputs).1
       = settle E tool block
           (executeTool E (config_tool block) (tool_params ctx final)
              false false ctx)).
Proof.
  intros Hempty Hmeta Hne Hconfig Hentries Hnodup Hin Hty Hs final a_is_1.
  assert (Hfinal : final !! key
                   = Some (match JSON_parse (trim s) with
                           | Some parsed => parsed
                           | None => VStr s
                           end)).
  { unfold final.
    rewrite (finalize_inputs_typed E block inputs blockType Hmeta Hne), Hconfig.
    unfold coerce_inputs. cbn [mbind option_bind]. rewrite Hentries.
    destruct (transform_inputs blockType (Some config) inputs) as [m log].
    by apply coerce_fold_at with (sch := sch). }
  split; [by intros parsed Hp; rewrite Hfinal, Hp |].
  split; [by intros Hp; rewrite Hfinal, Hp |].
  split.
  { intros -> Hp. rewrite Hfinal.
    change (trim a_is_1) with a_is_1. by rewrite Hp. }
  split.
  { intros -> Hp. rewrite Hfinal.
    change (trim (lit "{a:")) with (lit "{a:"). by rewrite Hp. }
  intros tool Htool. by apply execute_settles.
Qed.


Section FinalizationEvaluation.
Import Sample.

Lemma structured_inputs_are_parsed_witness :
  let a_is_1 := lit "{" ++ dquote ++ lit "a" ++ dquote ++ lit ":1}" in
  let config :=
    {| tools_config_params := None;
       block_inputs := Some [ (lit "query", ParamConfig (lit "json")) ] |} in
  (finalize_inputs (engine (Some config) (failed None)) vault_block
     {[ lit "query" := VStr a_is_1 ]}).1 !! lit "query"
  = Some (VObj [ (lit "a", VNum 1%Z) ])
  ∧ (finalize_inputs (engine (Some config) (failed None)) vault_block
       {[ lit "query" := VStr (lit "{a:") ]}).1 !! lit "query"
    = Some (VStr (lit "{a:")).
Proof.
  intros a_is_1 config.
  assert (Hnodup : NoDup [ (lit "query", ParamConfig (lit "json")) ].*1)
    by apply NoDup_singleton.
  assert (Hin : (lit "query", ParamConfig (lit "json"))
                ∈ [ (lit "query", ParamConfig (lit "json")) ])
    by apply list_elem_of_here.
  split.
  - refine (proj1 (proj2 (proj2
      (structured_inputs_are_parsed (engine (Some config) (failed None))
         run_context vault_block {[ lit "query" := VStr a_is_1 ]}
         (lit "google_vault") config _ (lit "query")
         (ParamConfig (lit "json")) a_is_1
         eq_refl eq_refl _ eq_refl eq_refl Hnodup Hin (or_introl eq_refl) _)))
      eq_refl eq_refl).
    + discriminate.
    + vm_compute. reflexivity.
  - refine (proj1 (proj2 (proj2 (proj2
      (structured_inputs_are_parsed (engine (Some config) (failed None))
         run_context vault_block {[ lit "query" := VStr (lit "{a:") ]}
         (lit "google_vault") config _ (lit "query")
         (ParamConfig (lit "json")) (lit "{a:")
         eq_refl eq_refl _ eq_refl eq_refl Hnodup Hin (or_introl eq_refl) _))))
      eq_refl eq_refl).
    + discriminate.
    + vm_compute. reflexivity.
Defined.



End FinalizationEvaluation.

(** ** The tag cell *)

Section TagsCellFacts.
Context `{NumberHost} `{!DateHost}.

Lemma tags_step_qualifies (document : gmap jsstring value)
    (tagDefinitions : list TagDefinition) (result : list TagValue)
    (slot : jsstring) :
  tags_step document tagDefinitions result slot
  = if qualifies document tagDefinitions slot
    then result ++ [ tag_for document tagDefinitions slot ]
    else result.
Proof.
  unfold tags_step, qualifies.
  destruct (is_nullish (document_get document slot)); [done |]. cbn [negb andb].
  cbv zeta. fold (matching_definition tagDefinitions slot).
  fold (resolved_fieldType tagDefinitions slot).
  by destruct (bool_decide (formatTagValue _ _ = [])).
Qed.

(** The loop is a filter of the slot list followed by a map. *)
Lemma tags_fold (document : gmap jsstring value)
    (tagDefinitions : list TagDefinition) (slots : list jsstring)
    (result : list TagValue) :
  fold_left (tags_step document tagDefinitions) slots result
  = result ++ (tag_for document tagDefinitions
               <$> List.filter (qualifies document tagDefinitions) slots).
Proof.
  revert result. induction slots as [|slot slots IH]; intros result; cbn.
  - by rewrite app_nil_r.
  - rewrite IH, tags_step_qualifies.
    destruct (qualifies document tagDefinitions slot); [| done].
    by rewrite <- app_assoc.
Qed.

Lemma tags_filter (document : gmap jsstring value)
    (tagDefinitions : list TagDefinition) :
  tags document tagDefinitions
  = tag_for document tagDefinitions
    <$> List.filter (qualifies document tagDefinitions) TAG_SLOTS.
Proof. unfold tags. by rewrite tags_fold. Qed.

Lemma tags_slots (document : gmap jsstring value)
    (tagDefinitions : list TagDefinition) :
  slot <$> tags document tagDefinitions
  = List.filter (qualifies document tagDefinitions) TAG_SLOTS.
Proof.
  rewrite tags_filter, <- list_fmap_compose.
  induction (List.filter _ TAG_SLOTS) as [|s l IH]; [done |].
  cbn. by rewrite IH.
Qed.

Lemma tags_elem (document : gmap jsstring value)
    (tagDefinitions : list TagDefinition) (t : TagValue) :
  t ∈ tags document tagDefinitions
  ↔ t = tag_for document tagDefinitions (slot t)
    ∧ slot t ∈ TAG_SLOTS
    ∧ qualifies document tagDefinitions (slot t) = true.
Proof.
  rewrite tags_filter, list_elem_of_fmap. split.
  - intros (s & -> & Hs). apply list_elem_of_In, filter_In in Hs as [Hin Hq].
    by rewrite <- list_elem_of_In in Hin.
  - intros (Ht & Hin & Hq). exists (slot t). split; [done |].
    apply list_elem_of_In, filter_In. by rewrite <- list_elem_of_In.
Qed.

Lemma qualifies_true (document : gmap jsstring value)
    (tagDefinitions : list TagDefinition) (s : jsstring) :
  qualifies document tagDefinitions s = true
  ↔ is_nullish (document_get document s) = false
    ∧ formatTagValue (document_get document s)
        (resolved_fieldType tagDefinitions s) ≠ [].
Proof.
  unfold qualifies.
  rewrite andb_true_iff, !negb_true_iff, bool_decide_eq_false. done.
Qed.

(** Reading the badges of a rendered list. *)
Lemma inline_badges (component : string) (l : list TagValue) :
  component = "Badge"%string ∨ component = "Popover"%string
  ∨ component = "PopoverContent"%string →
  flat_map (elements component) (inline_badge <$> l)
  = if String.eqb component "Badge"
    then (λ t, Elem "Badge" None [ Text (tv_value t) ]) <$> l
    else [].
Proof.
  intros Hc. induction l as [|t l IH]; cbn [fmap list_fmap flat_map].
  - by destruct (String.eqb component "Badge").
  - rewrite IH. destruct Hc as [-> | [-> | ->]]; reflexivity.
Qed.

Lemma detail_rows_plain (component : string) (l : list TagValue) :
  component = "Badge"%string ∨ component = "Popover"%string
  ∨ component = "PopoverContent"%string →
  flat_map (elements component) (detail_row <$> l) = [].
Proof.
  intros Hc. induction l as [|t l IH]; [done |].
  cbn [fmap list_fmap flat_map]. rewrite IH.
  destruct Hc as [-> | [-> | ->]]; reflexivity.
Qed.

Lemma detail_rows_texts (l : list TagValue) :
  child_texts <$> (detail_row <$> l)
  = (λ t, [ displayName t; tv_value t ]) <$> l.
Proof.
  induction l as [|t l IH]; [done |].
  cbn [fmap list_fmap] in *. rewrite IH. cbn. by rewrite !app_nil_r.
Qed.

Lemma badge_texts (l : list TagValue) :
  text_of <$> ((λ t, Elem "Badge" None [ Text (tv_value t) ]) <$> l)
  = tv_value <$> l.
Proof.
  induction l as [|t l IH]; [done |].
  cbn [fmap list_fmap] in *. rewrite IH. cbn. by rewrite app_nil_r.
Qed.

(** The rendered cell when there is at least one tag. *)
Lemma render_nonempty (ts : list TagValue) :
  ts ≠ [] →
  render ts
  = Elem "div" None
      ((inline_badge <$> take 2 ts)
       ++ (if bool_decide (2 < length ts)%nat
           then [ overflow_popover ts (drop 2 ts) ] else [])).
Proof.
  intros Hne. unfold render.
  rewrite bool_decide_eq_false_2 by (by destruct ts).
  cbv zeta. f_equal. f_equal. rewrite length_drop.
  repeat case_bool_decide; try done; lia.
Qed.

Lemma render_elements (component : string) (ts : list TagValue) :
  ts ≠ [] →
  component = "Badge"%string ∨ component = "Popover"%string
  ∨ component = "PopoverContent"%string →
  elements component (render ts)
  = flat_map (elements component) (inline_badge <$> take 2 ts)
    ++ (if bool_decide (2 < length ts)%nat
        then elements component (overflow_popover ts (drop 2 ts)) else []).
Proof.
  intros Hne Hc. rewrite render_nonempty by done.
  cbn [elements].
  replace (String.eqb "div" component) with false
    by (by destruct Hc as [-> | [-> | ->]]).
  cbn [app]. rewrite flat_map_app. f_equal.
  case_bool_decide; [| done]. cbn [flat_map]. by rewrite app_nil_r.
Qed.

Lemma overflow_popover_elements (all over : list TagValue) :
  elements "Badge" (overflow_popover all over)
  = [ Elem "Badge" None [ Text (lit "+"); Count (length over) ] ]
  ∧ elements "Popover" (overflow_popover all over)
    = [ overflow_popover all over ]
  ∧ elements "PopoverContent" (overflow_popover all over)
    = [ Elem "PopoverContent" None [ Elem "div" None (detail_row <$> all) ] ].
Proof.
  unfold overflow_popover. cbn -[lit].
  rewrite !app_nil_r.
  rewrite (detail_rows_plain "Badge"), (detail_rows_plain "Popover"),
    (detail_rows_plain "PopoverContent") by tauto.
  done.
Qed.

End TagsCellFacts.

(** The badges, popovers and detail rows of a rendered tag list. *)
Lemma render_badges_and_rows `{NumberHost} `{!DateHost} (ts : list TagValue) :
  (length ts = 0%nat →
   render ts = Elem "span" None [ Text DASH ] ∧ text_of (render ts) = DASH)
  ∧ ((length ts ≤ 2)%nat →
     text_of <$> elements "Badge" (render ts) = tv_value <$> ts
     ∧ elements "Popover" (render ts) = []
     ∧ elements "PopoverContent" (render ts) = [])
  ∧ ((2 < length ts)%nat →
     text_of <$> elements "Badge" (render ts)
     = (tv_value <$> take 2 ts)
       ++ [ lit "+" ++ decimal (N.of_nat (length ts - 2)) ]
     ∧ length (elements "Popover" (render ts)) = 1%nat
     ∧ ∃ rows,
         elements "PopoverContent" (render ts)
         = [ Elem "PopoverContent" None [ Elem "div" None rows ] ]
         ∧ child_texts <$> rows = (λ t, [ displayName t; tv_value t ]) <$> ts).
Proof.
  split; [| split].
  - intros Hlen. destruct ts; [done | discriminate].
  - intros Hlen. destruct ts as [|t ts]; [done |].
    rewrite !render_elements by (done || tauto).
    rewrite !inline_badges by tauto.
    rewrite bool_decide_eq_false_2 by lia.
    rewrite take_ge by done. cbn [String.eqb Ascii.eqb Bool.eqb].
    rewrite !app_nil_r. by rewrite badge_texts.
  - intros Hlen. assert (Hne : ts ≠ []) by (intros ->; cbn in Hlen; lia).
    rewrite !render_elements by (done || tauto).
    rewrite !inline_badges by tauto.
    rewrite bool_decide_eq_true_2 by lia.
    destruct (overflow_popover_elements ts (drop 2 ts)) as (-> & -> & ->).
    cbn [String.eqb Ascii.eqb Bool.eqb]. split; [| split].
    + rewrite fmap_app, badge_texts, length_drop. cbn. by rewrite app_nil_r.
    + done.
    + exists (detail_row <$> ts). split; [done |]. apply detail_rows_texts.
Qed.

(** C5.  The qualifying slots of a document are the slots of the fixed
    list whose stored value is present and formats to a non-empty string.
    With none the cell is only the placeholder; with at most two, the
    badges are the formatted values of all of them and no overflow popover
    is rendered; with more than two, the inline badges are the formatted
    values of exactly the first two in slot order, the count badge reads
    "+N" for the N remaining, and the detail panel lists every qualifying
    slot, the first two included, by display name and formatted value. *)
Theorem cell_shows_two_badges_then_overflow `{NumberHost} `{!DateHost}
    (document : gmap jsstring value) (tagDefinitions : list TagDefinition) :
  let qualifying :=
    List.filter (qualifies document tagDefinitions) TAG_SLOTS in
  let shown := λ s,
    formatTagValue (document_get document s)
      (resolved_fieldType tagDefinitions s) in
  let label := λ s,
    or_else (def_displayName <$> matching_definition tagDefinitions s) s in
  let cell := DocumentTagsCell document tagDefinitions in
  (∀ s, s ∈ qualifying
        ↔ s ∈ TAG_SLOTS ∧ is_nullish (document_get document s) = false
          ∧ shown s ≠ [])
  ∧ (length qualifying = 0%nat →
     cell = Elem "span" None [ Text DASH ] ∧ text_of cell = DASH)
  ∧ ((length qualifying ≤ 2)%nat →
     text_of <$> elements "Badge" cell = shown <$> qualifying
     ∧ elements "Popover" cell = []
     ∧ elements "PopoverContent" cell = [])
  ∧ ((2 < length qualifying)%nat →
     text_of <$> elements "Badge" cell
     = (shown <$> take 2 qualifying)
       ++ [ lit "+" ++ decimal (N.of_nat (length qualifying - 2)) ]
     ∧ length (elements "Popover" cell) = 1%nat
     ∧ ∃ rows,
         elements "PopoverContent" cell
         = [ Elem "PopoverContent" None [ Elem "div" None rows ] ]
         ∧ child_texts <$> rows = (λ s, [ label s; shown s ]) <$> qualifying).
Proof.
  intros qualifying shown label cell.
  assert (Hts : tags document tagDefinitions
                = tag_for document tagDefinitions <$> qualifying)
    by apply tags_filter.
  assert (Hlen : length (tags document tagDefinitions) = length qualifying)
    by (by rewrite Hts, length_fmap).
  assert (Hvalues : ∀ l : list jsstring,
            tv_value <$> (tag_for document tagDefinitions <$> l) = shown <$> l).
  { intros l. by rewrite <- list_fmap_compose. }
  destruct (render_badges_and_rows (tags document tagDefinitions))
    as (Hnone & Hfew & Hmany).
  unfold cell, DocumentTagsCell. rewrite Hlen in Hnone, Hfew, Hmany.
  split; [| split; [exact Hnone | split]].
  - intros s. unfold qualifying.
    rewrite list_elem_of_In, filter_In, <- list_elem_of_In, qualifies_true.
    done.
  - intros Hle. destruct (Hfew Hle) as (Hbadges & Hpop & Hpanel).
    split; [| done]. by rewrite Hbadges, Hts, Hvalues.
  - intros Hgt. destruct (Hmany Hgt) as (Hbadges & Hpop & rows & Hpanel & Hrows).
    split; [| split; [done |]].
    + by rewrite Hbadges, Hts, <- fmap_take, Hvalues.
    + exists rows. split; [done |]. rewrite Hrows, Hts.
      by rewrite <- list_fmap_compose.
Qed.

(** C6, as amended.  The tag sequence follows the fixed slot order
    (tag1..tag7, number1..number5, date1..date2, boolean1..boolean3)
    whatever the order in which the document was filled; a slot is in it
    exactly when its stored value is present and formats to a non-empty
    string.  The field type of a tag is the one of the matching definition
    when there is one and its field type is not empty, otherwise it is
    inferred from the prefix of the slot name; the display name is the one
    of the matching definition when there is one and its name is not empty,
    otherwise the slot name. *)
Theorem tags_follow_slot_order `{NumberHost} `{!DateHost}
    (document : gmap jsstring value) (tagDefinitions : list TagDefinition) :
  slot <$> tags document tagDefinitions
  = List.filter (qualifies document tagDefinitions) TAG_SLOTS
  ∧ (∀ s, s ∈ slot <$> tags document tagDefinitions
          ↔ s ∈ TAG_SLOTS
            ∧ is_nullish (document_get document s) = false
            ∧ formatTagValue (document_get document s)
                (resolved_fieldType tagDefinitions s) ≠ [])
  ∧ (∀ t, t ∈ tags document tagDefinitions →
       tv_value t
       = formatTagValue (document_get document (slot t)) (fieldType t)
       ∧ match matching_definition tagDefinitions (slot t) with
         | Some d =>
             def_tagSlot d = slot t
             ∧ fieldType t
               = (if bool_decide (def_fieldType d = [])
                  then getFieldType (slot t) else def_fieldType d)
             ∧ displayName t
               = (if bool_decide (def_displayName d = [])
                  then slot t else def_displayName d)
         | None =>
             fieldType t = getFieldType (slot t) ∧ displayName t = slot t
         end)
  ∧ getFieldType <$> TAG_SLOTS
    = replicate 7 (lit "text") ++ replicate 5 (lit "number")
      ++ replicate 2 (lit "date") ++ replicate 3 (lit "boolean")
  ∧ (∀ entries entries' : list (jsstring * value),
       NoDup entries.*1 → entries ≡ₚ entries' →
       tags (list_to_map entries) tagDefinitions
       = tags (list_to_map entries') tagDefinitions).
Proof.
  split; [apply tags_slots |]. split; [| split; [| split]].
  - intros s. rewrite tags_slots, list_elem_of_In, filter_In,
      <- list_elem_of_In, qualifies_true. done.
  - intros t Ht. apply tags_elem in Ht as (Ht & _ & _).
    rewrite Ht. generalize (slot t). clear t Ht. intros s.
    unfold tag_for. cbn [tv_value fieldType displayName slot].
    split; [done |]. unfold resolved_fieldType.
    destruct (matching_definition tagDefinitions s) as [d|] eqn:Hd;
      [| done].
    apply find_some in Hd as [_ Hd]. apply bool_decide_eq_true_1 in Hd.
    split; [done |]. cbn [fmap option_fmap option_map].
    split.
    + by destruct (def_fieldType d).
    + by destruct (def_displayName d).
  - reflexivity.
  - intros entries entries' Hnodup Hperm.
    by rewrite (list_to_map_proper entries entries' Hnodup Hperm).
Qed.

Section TagsCellEvaluation.
Import Sample.

(** C6 as stated fails on a definition whose field type and display name
    are empty strings: the definition exists, yet the tag takes the
    inferred field type and the slot name. *)
Lemma empty_definition_is_ignored :
  let defs :=
    [ {| def_tagSlot := lit "number1"; def_displayName := [];
         def_fieldType := [] |} ] in
  let doc : gmap jsstring value := {[ lit "number1" := VNum 5%Z ]} in
  ∃ t d,
    tags doc defs = [ t ]
    ∧ matching_definition defs (slot t) = Some d
    ∧ fieldType t = lit "number" ∧ fieldType t ≠ def_fieldType d
    ∧ displayName t = lit "number1" ∧ displayName t ≠ def_displayName d.
Proof.
  intros defs doc. eexists _, _.
  split; [vm_compute; reflexivity |].
  split; [vm_compute; reflexivity |].
  split; [reflexivity |]. split; [discriminate |].
  split; [reflexivity | discriminate].
Qed.

End TagsCellEvaluation.

Section FormatFacts.
Context `{NumberHost} `{!DateHost}.

Lemma formatTagValue_date (v : value) :
  is_nullish v = false →
  formatTagValue v (lit "date")
  = match format (new_Date v) (lit "MMM d, yyyy") with
    | Some formatted => formatted
    | None => to_String v
    end.
Proof. unfold formatTagValue. by intros ->. Qed.

Lemma formatTagValue_boolean (v : value) :
  is_nullish v = false →
  formatTagValue v (lit "boolean") = if truthy v then lit "Yes" else lit "No".
Proof. unfold formatTagValue. by intros ->. Qed.

Lemma formatTagValue_number (v : value) :
  is_nullish v = false →
  formatTagValue v (lit "number")
  = match v with
    | VNum n => number_toLocaleString n
    | _ => to_String v
    end.
Proof. unfold formatTagValue. by intros ->. Qed.

Lemma formatTagValue_other (v : value) (type : jsstring) :
  is_nullish v = false →
  type ≠ lit "date" → type ≠ lit "boolean" → type ≠ lit "number" →
  formatTagValue v type = to_String v.
Proof.
  unfold formatTagValue. intros -> Hd Hb Hn.
  by rewrite !bool_decide_eq_false_2.
Qed.

End FormatFacts.

(** The sample instant in a runtime [offset] minutes ahead of UTC. *)
Lemma sample_date_in_zone (offset : Z) :
  @formatTagValue Sample.integers (Sample.dates_at offset)
    (VStr (lit "2024-03-05T00:00:00Z")) (lit "date")
  = Sample.print_day
      (Sample.civil_from_days (Sample.local_day offset 28493280)).
Proof. reflexivity. Qed.

(** C7, as amended.  [formatTagValue] goes by the field type.  For "date"
    it is what date-fns prints, which is the calendar day in the runtime's
    local time zone: "2024-03-05T00:00:00Z" gives "Mar 5, 2024" in a zone
    at or ahead of UTC and "Mar 4, 2024" in a zone behind UTC, and
    "Mar 5, 2024" in any runtime that renders that instant as the fifth of
    March; a string that does not parse as a date comes back verbatim.
    For "boolean", [true] gives "Yes" and [false] gives "No".  For
    "number", a number is printed by [toLocaleString] and any other value
    by [String].  Every other field type gives [String] of the value. *)
Theorem formatTagValue_by_field_type `{NumberHost} `{!DateHost} :
  (∀ offset, (0 ≤ offset < 1440)%Z →
     @formatTagValue Sample.integers (Sample.dates_at offset)
       (VStr (lit "2024-03-05T00:00:00Z")) (lit "date")
     = lit "Mar 5, 2024")
  ∧ (∀ offset, (-1440 ≤ offset < 0)%Z →
       @formatTagValue Sample.integers (Sample.dates_at offset)
         (VStr (lit "2024-03-05T00:00:00Z")) (lit "date")
       = lit "Mar 4, 2024")
  ∧ (RendersSampleDate →
     formatTagValue (VStr (lit "2024-03-05T00:00:00Z")) (lit "date")
     = lit "Mar 5, 2024")
  ∧ (∀ s, date_valid (new_Date (VStr s)) = false →
       formatTagValue (VStr s) (lit "date") = s)
  ∧ (∀ v, is_nullish v = false →
       formatTagValue v (lit "date")
       = match format (new_Date v) (lit "MMM d, yyyy") with
         | Some formatted => formatted
         | None => to_String v
         end)
  ∧ formatTagValue (VBool true) (lit "boolean") = lit "Yes"
  ∧ formatTagValue (VBool false) (lit "boolean") = lit "No"
  ∧ (∀ n, formatTagValue (VNum n) (lit "number") = number_toLocaleString n)
  ∧ (∀ v, is_nullish v = false → (∀ n, v ≠ VNum n) →
       formatTagValue v (lit "number") = to_String v)
  ∧ (∀ v type, is_nullish v = false →
       type ≠ lit "date" → type ≠ lit "boolean" → type ≠ lit "number" →
       formatTagValue v type = to_String v).
Proof.
  split.
  { intros offset Hoff. rewrite sample_date_in_zone. unfold Sample.local_day.
    replace ((28493280 + offset) / 1440)%Z with 19787%Z
      by (apply (Z.div_unique _ _ _ offset); lia).
    vm_compute. reflexivity. }
  split.
  { intros offset Hoff. rewrite sample_date_in_zone. unfold Sample.local_day.
    replace ((28493280 + offset) / 1440)%Z with 19786%Z
      by (apply (Z.div_unique _ _ _ (offset + 1440)); lia).
    vm_compute. reflexivity. }
  split.
  { intros [Hvalid Hprint]. rewrite formatTagValue_date by done. unfold format.
    by rewrite Hvalid, Hprint. }
  split.
  { intros s Hs. rewrite formatTagValue_date by done. unfold format.
    by rewrite Hs. }
  split; [by apply formatTagValue_date |].
  split; [done |]. split; [done |]. split; [done |].
  split; [| by apply formatTagValue_other].
  intros v Hv Hnum. rewrite formatTagValue_number by done.
  destruct v; try done. by destruct (Hnum n).
Qed.

(** C7 as stated fails in a runtime eight hours behind UTC: there the
    sample instant is still the fourth of March. *)
Lemma sample_date_behind_utc :
  @formatTagValue Sample.integers (Sample.dates_at (-480))
    (VStr (lit "2024-03-05T00:00:00Z")) (lit "date")
  = lit "Mar 4, 2024"
  ∧ @formatTagValue Sample.integers (Sample.dates_at (-480))
      (VStr (lit "2024-03-05T00:00:00Z")) (lit "date")
    ≠ lit "Mar 5, 2024".
Proof. split; [vm_compute; reflexivity | by vm_compute]. Qed.

(** C10, as amended.  A stored value counts as absent only when it is
    [null] or [undefined]: in a slot whose field type is "boolean" a
    stored [false] qualifies and shows "No"; in a slot whose field type is
    "number" a stored zero is formatted by [toLocaleString], so it
    qualifies whenever that text is not empty and shows what the default
    locale prints for zero, which is "0" where the locale prints zero so;
    and an empty string in a slot whose field type is "text" is left out
    because it formats to the empty string. *)
Theorem falsy_values_are_present `{NumberHost} `{!DateHost}
    (document : gmap jsstring value) (tagDefinitions : list TagDefinition)
    (s : jsstring) :
  s ∈ TAG_SLOTS →
  let shown := tag_for document tagDefinitions s in
  (s ∈ slot <$> tags document tagDefinitions →
   is_nullish (document_get document s) = false)
  ∧ (is_nullish (document_get document s) = false →
     s ∉ slot <$> tags document tagDefinitions →
     formatTagValue (document_get document s)
       (resolved_fieldType tagDefinitions s) = [])
  ∧ (document_get document s = VBool false →
     resolved_fieldType tagDefinitions s = lit "boolean" →
     shown ∈ tags document tagDefinitions ∧ tv_value shown = lit "No")
  ∧ (document_get document s = VNum (number_of_Z 0) →
     resolved_fieldType tagDefinitions s = lit "number" →
     tv_value shown = number_toLocaleString (number_of_Z 0)
     ∧ (number_toLocaleString (number_of_Z 0) ≠ [] →
        shown ∈ tags document tagDefinitions)
     ∧ (PrintsZero →
        shown ∈ tags document tagDefinitions ∧ tv_value shown = lit "0"))
  ∧ (document_get document s = VStr [] →
     resolved_fieldType tagDefinitions s = lit "text" →
     s ∉ slot <$> tags document tagDefinitions).
Proof.
  intros Hslot shown.
  assert (Hmem : s ∈ slot <$> tags document tagDefinitions
                 ↔ qualifies document tagDefinitions s = true).
  { rewrite tags_slots, list_elem_of_In, filter_In, <- list_elem_of_In.
    tauto. }
  assert (Hshown : qualifies document tagDefinitions s = true →
                   shown ∈ tags document tagDefinitions).
  { intros Hq. by apply tags_elem. }
  split; [| split; [| split; [| split]]].
  - rewrite Hmem, qualifies_true. tauto.
  - intros Hv. rewrite Hmem, qualifies_true. intros Hq.
    destruct (decide (formatTagValue (document_get document s)
                        (resolved_fieldType tagDefinitions s) = []));
      [done | tauto].
  - intros Hv Hty.
    assert (Hval : tv_value shown = lit "No").
    { unfold shown, tag_for. cbn [tv_value]. by rewrite Hv, Hty. }
    split; [| done]. apply Hshown, qualifies_true.
    split; [by rewrite Hv |].
    change (tv_value shown ≠ []). by rewrite Hval.
  - intros Hv Hty.
    assert (Hval : tv_value shown = number_toLocaleString (number_of_Z 0)).
    { unfold shown, tag_for. cbn [tv_value]. rewrite Hv, Hty.
      by rewrite formatTagValue_number. }
    assert (Hin : number_toLocaleString (number_of_Z 0) ≠ [] →
                  shown ∈ tags document tagDefinitions).
    { intros Hne. apply Hshown, qualifies_true.
      split; [by rewrite Hv |].
      change (tv_value shown ≠ []). by rewrite Hval. }
    split; [exact Hval |]. split; [exact Hin |].
    intros Hzero. unfold PrintsZero in Hzero. split.
    + apply Hin. by rewrite Hzero.
    + by rewrite Hval.
  - intros Hv Hty. rewrite Hmem, qualifies_true, Hv, Hty.
    intros [_ Hne]. by apply Hne.
Qed.

(** C10 as stated fails in a runtime whose default locale writes
    Arabic-Indic digits: a stored zero is shown as U+0660, not as "0". *)
Lemma zero_is_shown_in_locale_digits :
  let doc : gmap jsstring (@value Sample.eastern) :=
    {[ lit "number1" := @VNum Sample.eastern 0%Z ]} in
  tv_value <$> @tags Sample.eastern (@Sample.dates_at Sample.eastern 0) doc []
  = [ [1632] ]
  ∧ [1632] ≠ lit "0".
Proof. split; [vm_compute; reflexivity | discriminate]. Qed.

Section FormatEvaluation.
Import Sample.

Lemma formatTagValue_by_field_type_witness :
  formatTagValue (VStr (lit "2024-03-05T00:00:00Z")) (lit "date")
  = lit "Mar 5, 2024"
  ∧ formatTagValue (VStr (lit "next tuesday")) (lit "date")
    = lit "next tuesday"
  ∧ formatTagValue (VNum 1234567%Z) (lit "number") = lit "1,234,567".
Proof.
  assert (Hsample : RendersSampleDate) by (split; vm_compute; reflexivity).
  destruct formatTagValue_by_field_type
    as (_ & _ & Hdate & Hraw & _ & _ & _ & Hnum & _).
  split; [exact (Hdate Hsample) |]. split; [by apply Hraw |]. apply Hnum.
Defined.

Lemma falsy_values_are_present_witness :
  let doc : gmap jsstring value :=
    {[ lit "boolean1" := VBool false; lit "number1" := VNum 0%Z;
       lit "tag1" := VStr [] ]} in
  (tag_for doc [] (lit "boolean1") ∈ tags doc []
   ∧ tv_value (tag_for doc [] (lit "boolean1")) = lit "No")
  ∧ (tag_for doc [] (lit "number1") ∈ tags doc []
     ∧ tv_value (tag_for doc [] (lit "number1")) = lit "0")
  ∧ lit "tag1" ∉ slot <$> tags doc [].
Proof.
  intros doc.
  assert (Hslot : ∀ s, In s TAG_SLOTS → s ∈ TAG_SLOTS)
    by (intros s Hs; by apply list_elem_of_In).
  split; [| split].
  - refine (proj1 (proj2 (proj2
      (falsy_values_are_present doc [] (lit "boolean1") (Hslot _ _))))
      eq_refl eq_refl).
    vm_compute. tauto.
  - refine (proj2 (proj2 (proj1 (proj2 (proj2 (proj2
      (falsy_values_are_present doc [] (lit "number1") (Hslot _ _)))))
      eq_refl eq_refl)) eq_refl).
    vm_compute. tauto.
  - refine (proj2 (proj2 (proj2 (proj2
      (falsy_values_are_present doc [] (lit "tag1") (Hslot _ _)))))
      eq_refl eq_refl).
    vm_compute. tauto.
Defined.

(** A document with four qualifying tags: two inline badges, "+2", and a
    panel of four rows. *)
Example four_tags_overflow :
  let doc : gmap jsstring value :=
    {[ lit "date1" := VStr (lit "2024-03-05T00:00:00Z");
       lit "boolean1" := VBool false;
       lit "number1" := VNum 1200%Z;
       lit "tag2" := VStr (lit "legal") ]} in
  let cell := DocumentTagsCell doc [] in
  slot <$> tags doc []
  = [ lit "tag2"; lit "number1"; lit "date1"; lit "boolean1" ]
  ∧ text_of <$> elements "Badge" cell = [ lit "legal"; lit "1,200"; lit "+2" ]
  ∧ text_of <$> elements "Tooltip.Content" cell
    = [ lit "tag2: legal"; lit "number1: 1,200"; lit "date1, boolean1" ].
Proof. repeat split; vm_compute; reflexivity. Qed.

End FormatEvaluation.

(** ** The matter-creation tool *)

(** C8, as amended.  The descriptor declares one request: a POST to
    https://vault.googleapis.com/v1/matters with the header
    [Authorization: Bearer <accessToken>] and a body holding the required
    name and the optional description.  When the response body is JSON
    other than [null] and the status is not a success, [transformResponse]
    throws an error whose message is the body's nested error message, or
    "Failed to create matter" when there is none, passed through
    [enhanceGoogleVaultError]; when the body is JSON and the status is a
    success, it returns the body under the output key [matter]. *)
Theorem createMattersTool_contract `{NumberHost}
    (enhanceGoogleVaultError : value → jsstring)
    (params : VaultTool.GoogleVaultCreateMattersParams)
    (response : VaultTool.Response) :
  let tool := VaultTool.createMattersTool enhanceGoogleVaultError in
  VaultTool.method (VaultTool.request tool) = lit "POST"
  ∧ VaultTool.url (VaultTool.request tool) ()
    = lit "https://vault.googleapis.com/v1/matters"
  ∧ VaultTool.headers (VaultTool.request tool) params
    = [ (lit "Authorization", lit "Bearer " ++ VaultTool.accessToken params);
        (lit "Content-Type", lit "application/json") ]
  ∧ VaultTool.body (VaultTool.request tool) params
    = VObj [ (lit "name", VStr (VaultTool.name params));
             (lit "description",
              match VaultTool.description params with
              | Some d => VStr d
              | None => VUndefined
              end) ]
  ∧ (∀ data, VaultTool.json response = Some data →
       VaultTool.ok response = false → is_nullish data = false →
       VaultTool.transformResponse tool response
       = VaultTool.ThrewError
           (enhanceGoogleVaultError
              (if truthy (VaultTool.nested_error_message data)
               then VaultTool.nested_error_message data
               else VStr (lit "Failed to create matter"))))
  ∧ (∀ data, VaultTool.json response = Some data →
       VaultTool.ok response = true →
       VaultTool.transformResponse tool response
       = VaultTool.Fulfilled
           (VObj [ (lit "success", VBool true);
                   (lit "output", VObj [ (lit "matter", data) ]) ])).
Proof.
  intros tool. split; [done |]. split; [done |]. split; [done |].
  split; [done |]. split.
  - intros data Hjson Hok Hdata. unfold tool. cbn [VaultTool.transformResponse
      VaultTool.createMattersTool]. by rewrite Hjson, Hok, Hdata.
  - intros data Hjson Hok. unfold tool. cbn [VaultTool.transformResponse
      VaultTool.createMattersTool]. by rewrite Hjson, Hok.
Qed.

(** C8 as stated fails on an unsuccessful response whose body is the JSON
    value [null], and on one whose body is not JSON: what is thrown is not
    an error carrying the default message. *)
Lemma createMattersTool_null_body :
  (∀ enhance : @value Sample.integers → jsstring,
     VaultTool.transformResponse (VaultTool.createMattersTool enhance)
       {| VaultTool.ok := false; VaultTool.json := Some VNull |}
     = VaultTool.ThrewTypeError
     ∧ VaultTool.transformResponse (VaultTool.createMattersTool enhance)
         {| VaultTool.ok := false; VaultTool.json := Some VNull |}
       ≠ VaultTool.ThrewError (enhance (VStr (lit "Failed to create matter"))))
  ∧ (∀ enhance : @value Sample.integers → jsstring,
       VaultTool.transformResponse (VaultTool.createMattersTool enhance)
         {| VaultTool.ok := false; VaultTool.json := None |}
       = VaultTool.JsonRejected).
Proof. split; [intros enhance; split; [reflexivity | discriminate] | done]. Qed.

(** * Further properties of the code *)

(** ** Detection of credential errors *)

Lemma contains_inside (pre s post t : list N) :
  contains s t → contains (pre ++ s ++ post) t.
Proof.
  intros (a & b & ->). exists (pre ++ a), (b ++ post).
  by rewrite <- !app_assoc.
Qed.

Lemma reauth_trigger_inside (pre s post : list N) :
  reauth_trigger s → reauth_trigger (pre ++ s ++ post).
Proof.
  unfold reauth_trigger.
  intros [Ht | [Ht | [[Ha Hb] | [Ht | [Ha Hb]]]]];
    eauto 8 using contains_inside.
Qed.

(** A message that is detected as a credential error is still detected
    when other ASCII text is put before and after it, as when an error is
    wrapped by its caller, and detection does not depend on the case of
    ASCII letters. *)
Theorem wrapped_credential_error_is_detected `{StringHost}
    (pre s post : jsstring) :
  LowersAscii →
  Forall is_ascii pre → Forall is_ascii s → Forall is_ascii post →
  (isCredentialRefreshError s = true →
   isCredentialRefreshError (pre ++ s ++ post) = true
   ∧ enhanceCredentialError (pre ++ s ++ post) = REMEDIATION)
  ∧ (∀ s', Forall is_ascii s' → ascii_lower <$> s' = ascii_lower <$> s →
       isCredentialRefreshError s' = isCredentialRefreshError s).
Proof.
  intros HL Hpre Hs Hpost. split.
  - intros Hdet.
    assert (Hwrapped : isCredentialRefreshError (pre ++ s ++ post) = true).
    { apply isCredentialRefreshError_trigger.
      apply isCredentialRefreshError_trigger in Hdet.
      rewrite HL in Hdet by done.
      rewrite HL by (by repeat apply Forall_app_2).
      rewrite !fmap_app. by apply reauth_trigger_inside. }
    split; [done | by apply enhance_triggered].
  - intros s' Hs' Hsame. unfold isCredentialRefreshError.
    by rewrite (HL s' Hs'), (HL s Hs), Hsame.
Qed.

Lemma wrapped_credential_error_is_detected_witness :
  @enhanceCredentialError ascii_host
    (lit "Tool failed: " ++ lit "Failed to refresh token" ++ lit " (retry 3)")
  = REMEDIATION.
Proof.
  refine (proj2 (proj1
    (@wrapped_credential_error_is_detected ascii_host
       (lit "Tool failed: ") (lit "Failed to refresh token") (lit " (retry 3)")
       ascii_host_lowers _ _ _) _));
    try (apply is_ascii_forallb; vm_compute; reflexivity).
  vm_compute. reflexivity.
Defined.

(** ** Properties of object literals *)

Section SuccessFacts.
Context `{NumberHost}.

Lemma own_prop_obj_set (props : list (jsstring * value)) (k k' : jsstring)
    (v : value) :
  own_prop (obj_set props k v) k'
  = if bool_decide (k = k') then Some v else own_prop props k'.
Proof.
  induction props as [|[k0 v0] props IH]; cbn [obj_set own_prop]; [done |].
  destruct (decide (k0 = k)) as [-> | Hk0].
  - rewrite bool_decide_eq_true_2 by done. cbn [own_prop].
    by destruct (bool_decide (k = k')).
  - rewrite bool_decide_eq_false_2 by done. cbn [own_prop]. rewrite IH.
    destruct (decide (k0 = k')) as [-> | Hk'].
    + rewrite bool_decide_eq_true_2 by done.
      by rewrite bool_decide_eq_false_2 by congruence.
    + by rewrite (bool_decide_eq_false_2 (k0 = k')) by done.
Qed.

Lemma obj_set_keys (props : list (jsstring * value)) (k : jsstring)
    (v : value) :
  (obj_set props k v).*1
  = if bool_decide (k ∈ props.*1) then props.*1 else props.*1 ++ [k].
Proof.
  induction props as [|[k0 v0] props IH]; [done |].
  cbn [obj_set fmap list_fmap fst].
  destruct (decide (k0 = k)) as [-> | Hk0].
  - rewrite bool_decide_eq_true_2 by done.
    by rewrite bool_decide_eq_true_2 by (by left).
  - rewrite bool_decide_eq_false_2 by done. cbn [fmap list_fmap fst].
    rewrite IH. destruct (decide (k ∈ props.*1)) as [Hin | Hout].
    + rewrite bool_decide_eq_true_2 by done.
      by rewrite bool_decide_eq_true_2 by (by right).
    + rewrite bool_decide_eq_false_2 by done.
      rewrite bool_decide_eq_false_2; [done |].
      intros Hk. apply elem_of_cons in Hk as [-> | Hk]; done.
Qed.

Lemma obj_set_NoDup (props : list (jsstring * value)) (k : jsstring)
    (v : value) :
  NoDup props.*1 → NoDup (obj_set props k v).*1.
Proof.
  intros Hnd. rewrite obj_set_keys. case_bool_decide; [done |].
  apply NoDup_app. split; [done |]. split; [| apply NoDup_singleton].
  intros x Hx Hk. apply list_elem_of_singleton in Hk. by subst x.
Qed.

End SuccessFacts.

(** ** Errors raised by the handler *)

Section RaisedErrors.
Context `{StringHost} `{NumberHost} `{!JsonHost}.

Lemma fallback_text_shape (tool : ToolConfig) (block : SerializedBlock)
    (error_status : value) :
  ∃ rest,
    fallback_text tool block error_status = lit "Block execution of " ++ rest.
Proof.
  unfold fallback_text.
  destruct (metadata block ≫= meta_name) as [[|c name]|];
    destruct (truthy error_status); rewrite <- ?app_assoc; eauto.
Qed.

Lemma fallback_message_shape (tool : ToolConfig) (block : SerializedBlock)
    (e : ErrorObject) :
  ∃ rest, fallback_message tool block e = lit "Block execution of " ++ rest.
Proof. apply fallback_text_shape. Qed.

Lemma catch_Error_message_set (tool : ToolConfig) (block : SerializedBlock)
    (e : ErrorObject) :
  message (catch_Error tool block e) ≠ []
  ∧ message (catch_Error tool block e) ≠ lit "undefined (undefined)".
Proof.
  rewrite catch_Error_message. cbv zeta.
  destruct (bool_decide (enhanceCredentialError (message e) = [])) eqn:He;
    cbn [orb].
  - destruct (fallback_message_shape tool block
                (if bool_decide (enhanceCredentialError (message e) ≠ message e)
                 then set_message e (enhanceCredentialError (message e))
                 else e)) as [rest ->].
    split; discriminate.
  - destruct (bool_decide (enhanceCredentialError (message e)
                           = lit "undefined (undefined)")) eqn:Hp.
    + destruct (fallback_message_shape tool block
                  (if bool_decide (enhanceCredentialError (message e) ≠ message e)
                   then set_message e (enhanceCredentialError (message e))
                   else e)) as [rest ->].
      split; discriminate.
    + apply bool_decide_eq_false_1 in He, Hp. done.
Qed.

Lemma block_display_name_set (block : SerializedBlock) :
  block_display_name block ≠ [].
Proof.
  unfold block_display_name.
  by destruct (metadata block ≫= meta_name) as [[|c name]|].
Qed.

(** The properties of an object after the [catch] block, one by one. *)
Lemma catch_object_lookup (tool : ToolConfig) (block : SerializedBlock)
    (props : list (jsstring * value)) (k : jsstring) :
  let error_message := member (VObj props) (lit "message") in
  let replaced :=
    negb (truthy error_message)
    || match error_message with
       | VStr s => bool_decide (s = lit "undefined (undefined)")
       | _ => false
       end in
  own_prop (catch_object tool block props) k
  = if bool_decide (k = lit "blockName") then
      if truthy (member (VObj props) (lit "blockName")) then own_prop props k
      else Some (VStr (block_display_name block))
    else if bool_decide (k = lit "toolId") then
      if truthy (member (VObj props) (lit "toolId")) then own_prop props k
      else Some (VStr (config_tool block))
    else if bool_decide (k = lit "message") then
      if replaced then
        Some (VStr (fallback_text tool block
                      (member (VObj props) (lit "status"))))
      else own_prop props k
    else own_prop props k.
Proof.
  intros error_message replaced. unfold catch_object. cbv zeta.
  fold (member (VObj props) (lit "message")). fold error_message.
  fold replaced. clearbody replaced. clear error_message.
  assert (Hne1 : lit "blockName" ≠ lit "toolId") by (vm_compute; discriminate).
  assert (Hne2 : lit "blockName" ≠ lit "message") by (vm_compute; discriminate).
  assert (Hne3 : lit "toolId" ≠ lit "message") by (vm_compute; discriminate).
  unfold member.
  destruct replaced;
    repeat first
      [ rewrite own_prop_obj_set
      | match goal with
        | |- context [bool_decide (lit ?a = lit ?b)] =>
            rewrite (bool_decide_eq_false_2 (lit a = lit b))
              by (vm_compute; discriminate)
        end
      | progress cbv iota
      | match goal with
        | |- context [truthy (default VUndefined (own_prop props ?key))] =>
            destruct (truthy (default VUndefined (own_prop props key)))
        end ];
    repeat case_bool_decide; subst; congruence.
Qed.

Lemma execute_completion (E : Engine) (ctx : ExecutionContext)
    (block : SerializedBlock) (inputs : gmap jsstring value) :
  (execute E ctx block inputs).1
  = match getTool E (config_tool block) with
    | None => Threw (new_Error (lit "Tool not found: " ++ config_tool block))
    | Some tool =>
        settle E tool block
          (executeTool E (config_tool block)
             (tool_params ctx (finalize_inputs E block inputs).1)
             false false ctx)
    end.
Proof.
  unfold execute. destruct (getTool E (config_tool block)); [| done].
  by destruct (finalize_inputs E block inputs).
Qed.

End RaisedErrors.

Section RaisedObjects.
Context `{StringHost} `{NumberHost} `{!JsonHost}.

Lemma catch_object_message (tool : ToolConfig) (block : SerializedBlock)
    (props : list (jsstring * value)) :
  let error_message := member (VObj props) (lit "message") in
  member (VObj (catch_object tool block props)) (lit "message")
  = if negb (truthy error_message)
       || match error_message with
          | VStr s => bool_decide (s = lit "undefined (undefined)")
          | _ => false
          end
    then VStr (fallback_text tool block (member (VObj props) (lit "status")))
    else error_message.
Proof.
  intros error_message. unfold member at 1.
  rewrite catch_object_lookup. cbv zeta. fold error_message.
  rewrite (bool_decide_eq_false_2 (lit "message" = lit "blockName"))
    by (vm_compute; discriminate).
  rewrite (bool_decide_eq_false_2 (lit "message" = lit "toolId"))
    by (vm_compute; discriminate).
  rewrite (bool_decide_eq_true_2 (lit "message" = lit "message")) by done.
  by destruct (_ || _).
Qed.

Lemma catch_object_toolId (tool : ToolConfig) (block : SerializedBlock)
    (props : list (jsstring * value)) :
  own_prop (catch_object tool block props) (lit "toolId")
  = if truthy (member (VObj props) (lit "toolId"))
    then own_prop props (lit "toolId")
    else Some (VStr (config_tool block)).
Proof.
  rewrite catch_object_lookup. cbv zeta.
  rewrite (bool_decide_eq_false_2 (lit "toolId" = lit "blockName"))
    by (vm_compute; discriminate).
  by rewrite (bool_decide_eq_true_2 (lit "toolId" = lit "toolId")) by done.
Qed.

Lemma catch_object_blockName (tool : ToolConfig) (block : SerializedBlock)
    (props : list (jsstring * value)) :
  own_prop (catch_object tool block props) (lit "blockName")
  = if truthy (member (VObj props) (lit "blockName"))
    then own_prop props (lit "blockName")
    else Some (VStr (block_display_name block)).
Proof.
  rewrite catch_object_lookup. cbv zeta.
  by rewrite (bool_decide_eq_true_2 (lit "blockName" = lit "blockName"))
    by done.
Qed.

Lemma catch_object_other (tool : ToolConfig) (block : SerializedBlock)
    (props : list (jsstring * value)) (k : jsstring) :
  k ≠ lit "message" → k ≠ lit "toolId" → k ≠ lit "blockName" →
  own_prop (catch_object tool block props) k = own_prop props k.
Proof.
  intros Hm Ht Hb. rewrite catch_object_lookup. cbv zeta.
  by rewrite !bool_decide_eq_false_2.
Qed.

(** After the [catch] block an object has a message that is truthy and
    not the placeholder, and a truthy block name. *)
Lemma catch_object_described (tool : ToolConfig) (block : SerializedBlock)
    (props : list (jsstring * value)) :
  let caught := VObj (catch_object tool block props) in
  truthy (member caught (lit "message")) = true
  ∧ member caught (lit "message") ≠ VStr (lit "undefined (undefined)")
  ∧ truthy (member caught (lit "blockName")) = true
  ∧ (config_tool block ≠ [] → truthy (member caught (lit "toolId")) = true).
Proof.
  intros caught. unfold caught. split; [| split; [| split]].
  - rewrite catch_object_message. cbv zeta.
    destruct (truthy (member (VObj props) (lit "message"))) eqn:Hm;
      cbn [negb orb].
    + destruct (member (VObj props) (lit "message")) eqn:Hv; try done.
      case_bool_decide; [| done].
      destruct (fallback_text_shape tool block
                  (member (VObj props) (lit "status"))) as [rest ->]. done.
    + destruct (fallback_text_shape tool block
                  (member (VObj props) (lit "status"))) as [rest ->]. done.
  - rewrite catch_object_message. cbv zeta.
    destruct (truthy (member (VObj props) (lit "message"))) eqn:Hm;
      cbn [negb orb].
    + destruct (member (VObj props) (lit "message")) eqn:Hv; try done.
      case_bool_decide as Hs; [| congruence].
      destruct (fallback_text_shape tool block
                  (member (VObj props) (lit "status"))) as [rest ->].
      discriminate.
    + destruct (fallback_text_shape tool block
                  (member (VObj props) (lit "status"))) as [rest ->].
      discriminate.
  - unfold member at 1. rewrite catch_object_blockName.
    destruct (truthy (member (VObj props) (lit "blockName"))) eqn:Hb;
      [exact Hb |]. cbn.
    by rewrite bool_decide_eq_false_2 by apply block_display_name_set.
  - intros Hcfg. unfold member at 1. rewrite catch_object_toolId.
    destruct (truthy (member (VObj props) (lit "toolId"))) eqn:Hb;
      [exact Hb |]. cbn. by rewrite bool_decide_eq_false_2.
Qed.

End RaisedObjects.

(** Whatever [execute] throws is described, unless tool execution
    rejected with a primitive.  An [Error] it throws has a message that is
    neither empty nor the placeholder "undefined (undefined)", and, when
    the tool was found, a truthy block name and, for a non-empty tool id,
    a truthy tool id.  An object that is not an [Error] is rethrown with a
    truthy message that is not the placeholder, a truthy block name and,
    for a non-empty tool id, a truthy tool id.  A rejection with a
    primitive, and nothing else, ends in a [TypeError] raised inside the
    [catch] block. *)
Theorem thrown_errors_are_described `{StringHost} `{NumberHost} `{!JsonHost}
    (E : Engine) (ctx : ExecutionContext) (block : SerializedBlock)
    (inputs : gmap jsstring value) :
  (∀ e, (execute E ctx block inputs).1 = Threw e →
     message e ≠ [] ∧ message e ≠ lit "undefined (undefined)"
     ∧ (is_Some (getTool E (config_tool block)) →
        truthy (blockName e) = true
        ∧ (config_tool block ≠ [] → truthy (toolId e) = true)))
  ∧ (∀ props, (execute E ctx block inputs).1 = ThrewObject props →
       truthy (member (VObj props) (lit "message")) = true
       ∧ member (VObj props) (lit "message")
         ≠ VStr (lit "undefined (undefined)")
       ∧ truthy (member (VObj props) (lit "blockName")) = true
       ∧ (config_tool block ≠ [] →
          truthy (member (VObj props) (lit "toolId")) = true))
  ∧ ((execute E ctx block inputs).1 = ThrewTypeError
     ↔ ∃ tool p,
         getTool E (config_tool block) = Some tool
         ∧ executeTool E (config_tool block)
             (tool_params ctx (finalize_inputs E block inputs).1)
             false false ctx
           = RejectedPrimitive p).
Proof.
  rewrite execute_completion.
  destruct (getTool E (config_tool block)) as [tool|] eqn:Htool.
  - unfold settle.
    destruct (executeTool _ _ _ _ _ _) as [result | e0 | props0 | p] eqn:Hrun.
    + destruct (negb (success result)); cbn [on_catch].
      * split; [| split; [done | split; [done | by intros (? & ? & _ & ?)]]].
        intros e [= <-].
        destruct (catch_Error_message_set tool block
                    (failure_error E tool block result)) as [Hne Hph].
        destruct (catch_Error_keeps tool block
                    (failure_error E tool block result))
          as (_ & _ & _ & _ & _ & Hid & Hname).
        split; [done |]. split; [done |]. intros _. rewrite Hid, Hname.
        cbn [toolId blockName failure_error]. split.
        -- replace (if truthy (VStr (block_display_name block))
                    then VStr (block_display_name block)
                    else VStr (block_display_name block))
             with (VStr (block_display_name block))
             by (destruct (truthy (VStr (block_display_name block)));
                 reflexivity).
           cbn.
           by rewrite bool_decide_eq_false_2 by apply block_display_name_set.
        -- intros Hcfg.
           replace (if truthy (VStr (config_tool block))
                    then VStr (config_tool block)
                    else VStr (config_tool block))
             with (VStr (config_tool block))
             by (destruct (truthy (VStr (config_tool block))); reflexivity).
           cbn. by rewrite bool_decide_eq_false_2.
      * split; [done |]. split; [done |]. split; [done |].
        by intros (? & ? & _ & ?).
    + cbn [on_catch].
      split; [| split; [done | split; [done | by intros (? & ? & _ & ?)]]].
      intros e [= <-].
      destruct (catch_Error_message_set tool block e0) as [Hne Hph].
      destruct (catch_Error_keeps tool block e0)
        as (_ & _ & _ & _ & _ & Hid & Hname).
      split; [done |]. split; [done |]. intros _. rewrite Hid, Hname. split.
      * destruct (truthy (blockName e0)) eqn:Hb; [done |]. cbn.
        by rewrite bool_decide_eq_false_2 by apply block_display_name_set.
      * intros Hcfg. destruct (truthy (toolId e0)) eqn:Hb; [done |]. cbn.
        by rewrite bool_decide_eq_false_2.
    + cbn [on_catch]. split; [done |].
      split; [| split; [done | by intros (? & ? & _ & ?)]].
      intros props [= <-]. apply catch_object_described.
    + cbn [on_catch]. split; [done |]. split; [done |].
      split; [intros _; by exists tool, p | done].
  - split; [| split; [done | split; [done | by intros (? & ? & ? & _)]]].
    intros e [= <-]. split; [discriminate |]. split; [discriminate |].
    by intros [? ?].
Qed.

(** When the configured tool is not registered, [execute] throws
    "Tool not found: <tool id>" before anything else happens: nothing is
    logged, the inputs and the block configuration play no part, and the
    error carries none of the diagnostic properties, since the throw is
    outside the [try]. *)
Theorem unknown_tool_is_rejected `{StringHost} `{NumberHost} `{!JsonHost}
    (E : Engine) (ctx : ExecutionContext) (block : SerializedBlock)
    (inputs : gmap jsstring value) :
  getTool E (config_tool block) = None →
  ∃ e, execute E ctx block inputs = (Threw e, [])
       ∧ message e = lit "Tool not found: " ++ config_tool block
       ∧ toolId e = VUndefined ∧ toolName e = VUndefined
       ∧ blockId e = VUndefined ∧ blockName e = VUndefined
       ∧ timestamp e = VUndefined
       ∧ ∀ inputs', execute E ctx block inputs' = execute E ctx block inputs.
Proof.
  intros Hnone. exists (new_Error (lit "Tool not found: " ++ config_tool block)).
  unfold execute. rewrite Hnone. repeat split; done.
Qed.

Section RaisedErrorsEvaluation.
Import Sample.

Lemma unknown_tool_is_rejected_witness :
  ∃ e, execute unregistered run_context vault_block ∅ = (Threw e, [])
       ∧ message e = lit "Tool not found: create_matters"
       ∧ toolId e = VUndefined.
Proof.
  destruct (unknown_tool_is_rejected unregistered run_context vault_block ∅
              eq_refl) as (e & Hrun & Hmsg & Hid & _).
  exists e. split; [exact Hrun |]. split; [exact Hmsg | exact Hid].
Defined.

End RaisedErrorsEvaluation.

(** When [executeTool] rejects with an [Error] or with another object,
    [execute] rethrows it with its diagnostics completed, never replaced:
    of an [Error], status, tool name, block id, output and timestamp are
    as they were, and the tool id and the block name are filled in only
    where the error had none; of another object, every property other than
    [message], [toolId] and [blockName] is as it was, and those two are
    filled in only where they were missing or falsy.  A rejection with a
    primitive is not rethrown: the [catch] block ends in a [TypeError]. *)
Theorem rejection_diagnostics_are_backfilled `{StringHost} `{NumberHost}
    `{!JsonHost}
    (E : Engine) (ctx : ExecutionContext) (block : SerializedBlock)
    (inputs : gmap jsstring value) (tool : ToolConfig) :
  getTool E (config_tool block) = Some tool →
  let outcome :=
    executeTool E (config_tool block)
      (tool_params ctx (finalize_inputs E block inputs).1) false false ctx in
  (∀ e0, outcome = Rejected e0 →
     ∃ e, (execute E ctx block inputs).1 = Threw e
          ∧ status e = status e0 ∧ toolName e = toolName e0
          ∧ blockId e = blockId e0 ∧ err_output e = err_output e0
          ∧ timestamp e = timestamp e0
          ∧ (truthy (toolId e0) = true → toolId e = toolId e0)
          ∧ (truthy (toolId e0) = false →
             toolId e = VStr (config_tool block))
          ∧ (truthy (blockName e0) = true → blockName e = blockName e0)
          ∧ (truthy (blockName e0) = false →
             blockName e = VStr (block_display_name block)))
  ∧ (∀ props, outcome = RejectedObject props →
       ∃ props', (execute E ctx block inputs).1 = ThrewObject props'
         ∧ (∀ k, k ≠ lit "message" → k ≠ lit "toolId" →
              k ≠ lit "blockName" → own_prop props' k = own_prop props k)
         ∧ (truthy (member (VObj props) (lit "toolId")) = true →
            own_prop props' (lit "toolId") = own_prop props (lit "toolId"))
         ∧ (truthy (member (VObj props) (lit "toolId")) = false →
            own_prop props' (lit "toolId") = Some (VStr (config_tool block)))
         ∧ (truthy (member (VObj props) (lit "blockName")) = true →
            own_prop props' (lit "blockName")
            = own_prop props (lit "blockName"))
         ∧ (truthy (member (VObj props) (lit "blockName")) = false →
            own_prop props' (lit "blockName")
            = Some (VStr (block_display_name block))))
  ∧ (∀ p, outcome = RejectedPrimitive p →
       (execute E ctx block inputs).1 = ThrewTypeError).
Proof.
  intros Htool outcome. rewrite execute_completion, Htool. fold outcome.
  split; [| split].
  - intros e0 ->. exists (catch_Error tool block e0).
    destruct (catch_Error_keeps tool block e0)
      as (Hst & Hname & Hid & Hout & Htime & Htool_id & Hblock).
    split; [done |].
    rewrite Hst, Hname, Hid, Hout, Htime, Htool_id, Hblock.
    repeat split; try done; by intros ->.
  - intros props ->. exists (catch_object tool block props).
    split; [done |]. split; [by apply catch_object_other |].
    rewrite catch_object_toolId, catch_object_blockName.
    repeat split; by intros ->.
  - by intros p ->.
Qed.

(** The message of a rejection.  Of an [Error]: a credential error becomes
    the remediation message; an empty message or the placeholder, the
    "Block execution of ... failed" message with the block name and the
    status when there are any; every other message is rethrown as it is.
    Of an object that is not an [Error]: the message is never enhanced, so
    a non-empty string other than the placeholder stays as it is, even a
    credential error; a falsy message or the placeholder is replaced by
    the "Block execution of ... failed" message.  A primitive has no
    message to set: the [catch] block ends in a [TypeError]. *)
Theorem rejection_message `{StringHost} `{NumberHost} `{!JsonHost}
    (E : Engine) (ctx : ExecutionContext) (block : SerializedBlock)
    (inputs : gmap jsstring value) (tool : ToolConfig) :
  getTool E (config_tool block) = Some tool →
  let outcome :=
    executeTool E (config_tool block)
      (tool_params ctx (finalize_inputs E block inputs).1) false false ctx in
  (∀ e0, outcome = Rejected e0 →
     ∃ e, (execute E ctx block inputs).1 = Threw e
          ∧ (isCredentialRefreshError (message e0) = true →
             message e = REMEDIATION)
          ∧ (isCredentialRefreshError (message e0) = false →
             (message e0 = [] ∨ message e0 = lit "undefined (undefined)" →
              message e = fallback_message tool block e0)
             ∧ (message e0 ≠ [] → message e0 ≠ lit "undefined (undefined)" →
                message e = message e0)))
  ∧ (∀ props, outcome = RejectedObject props →
       ∃ props', (execute E ctx block inputs).1 = ThrewObject props'
         ∧ (∀ s, member (VObj props) (lit "message") = VStr s →
              s ≠ [] → s ≠ lit "undefined (undefined)" →
              member (VObj props') (lit "message") = VStr s)
         ∧ (truthy (member (VObj props) (lit "message")) = false
            ∨ member (VObj props) (lit "message")
              = VStr (lit "undefined (undefined)") →
            member (VObj props') (lit "message")
            = VStr (fallback_text tool block
                      (member (VObj props) (lit "status")))))
  ∧ (∀ p, outcome = RejectedPrimitive p →
       (execute E ctx block inputs).1 = ThrewTypeError).
Proof.
  intros Htool outcome. rewrite execute_completion, Htool. fold outcome.
  split; [| split; [| by intros p ->]].
  - intros e0 ->. exists (catch_Error tool block e0).
    split; [done |]. rewrite catch_Error_message. cbv zeta. split.
    + intros Hdet. rewrite (enhance_triggered _ Hdet).
      rewrite (bool_decide_eq_false_2 (REMEDIATION = [])) by discriminate.
      by rewrite (bool_decide_eq_false_2 (REMEDIATION = _))
        by apply remediation_not_placeholder.
    + intros Hplain. rewrite (enhance_untouched _ Hplain).
      rewrite (bool_decide_eq_false_2 (message e0 ≠ message e0))
        by (by intros Hne; apply Hne).
      split.
      * intros [-> | ->]; [by rewrite bool_decide_eq_true_2 |].
        by rewrite (bool_decide_eq_true_2 (_ = lit "undefined (undefined)")),
          orb_true_r.
      * intros Hne Hph. by rewrite !bool_decide_eq_false_2.
  - intros props ->. exists (catch_object tool block props).
    split; [done |]. rewrite catch_object_message. cbv zeta. split.
    + intros s -> Hne Hph. cbn [truthy].
      by rewrite !bool_decide_eq_false_2.
    + intros [Hfalsy | Hph].
      * by rewrite Hfalsy.
      * rewrite Hph. by rewrite bool_decide_eq_true_2, orb_true_r.
Qed.

Section RejectionEvaluation.
Import Sample.

Lemma rejection_diagnostics_are_backfilled_witness :
  ∃ e, (execute (engine None (rejected (lit "quota exceeded")
                                (@VNum integers 429%Z)))
          run_context vault_block ∅).1 = Threw e
       ∧ status e = VNum 429%Z
       ∧ toolId e = VStr (lit "create_matters")
       ∧ blockName e = VStr (lit "Intake").
Proof.
  destruct (proj1 (rejection_diagnostics_are_backfilled
              (engine None (rejected (lit "quota exceeded")
                              (@VNum integers 429%Z)))
              run_context vault_block ∅ _ eq_refl) _ eq_refl)
    as (e & Hrun & Hst & _ & _ & _ & _ & _ & Hid & Hname & _).
  exists e. split; [exact Hrun |]. split; [exact Hst |].
  split; [by apply Hid | by apply Hname].
Defined.

Lemma rejection_message_witness :
  (∃ e, (execute (engine None (rejected [] (@VNum integers 503%Z)))
           run_context vault_block ∅).1 = Threw e
        ∧ message e
          = lit "Block execution of Vault Create Matter failed: Vault (Status: 503)")
  ∧ (∃ props',
       (execute
          (engine None
             (RejectedObject
                [ (lit "message", @VStr integers (lit "failed to refresh token")) ]))
          run_context vault_block ∅).1 = ThrewObject props'
       ∧ member (VObj props') (lit "message")
         = VStr (lit "failed to refresh token")).
Proof.
  split.
  - destruct (proj1 (rejection_message
                (engine None (rejected [] (@VNum integers 503%Z)))
                run_context vault_block ∅ _ eq_refl) _ eq_refl)
      as (e & Hrun & _ & Hplain).
    exists e. split; [exact Hrun |].
    destruct (Hplain eq_refl) as [Hfallback _].
    rewrite Hfallback by (by left). vm_compute. reflexivity.
  - destruct (proj1 (proj2 (rejection_message
                (engine None
                   (RejectedObject
                      [ (lit "message",
                         @VStr integers (lit "failed to refresh token")) ]))
                run_context vault_block ∅ _ eq_refl)) _ eq_refl)
      as (props' & Hrun & Hkept & _).
    exists props'. split; [exact Hrun |].
    apply Hkept; [reflexivity | discriminate | discriminate].
Defined.

End RejectionEvaluation.


(** ** The value returned on success *)


(** [execute] returns, rather than throws, exactly when the tool is
    registered and its execution resolves with [success] set; what it
    returns is then the output, restructured when it has a cost. *)
Theorem execute_returns_exactly_on_success `{StringHost} `{NumberHost}
    `{!JsonHost}
    (E : Engine) (ctx : ExecutionContext) (block : SerializedBlock)
    (inputs : gmap jsstring value) (v : value) :
  (execute E ctx block inputs).1 = Returned v
  ↔ ∃ tool result,
      getTool E (config_tool block) = Some tool
      ∧ executeTool E (config_tool block)
          (tool_params ctx (finalize_inputs E block inputs).1) false false ctx
        = Resolved result
      ∧ success result = true
      ∧ v = success_value (output result).
Proof.
  split.
  - unfold execute.
    destruct (getTool E (config_tool block)) as [tool|]; [| done].
    destruct (finalize_inputs E block inputs) as [final log]. cbn [fst].
    unfold settle.
    destruct (executeTool _ _ _ _ _ _) as [result | e0 | props | p] eqn:Hrun;
      try done.
    destruct (success result) eqn:Hs; cbn [negb]; [| done].
    intros [= <-]. by exists tool, result.
  - intros (tool & result & Htool & Hrun & Hs & ->).
    rewrite (execute_settles E ctx block inputs tool Htool), Hrun.
    unfold settle. by rewrite Hs.
Qed.

(** An output without a truthy [cost] is returned as it is.  An output
    with one is returned with [cost] cut down to its [input], [output] and
    [total], with the cost's [tokens] and [model] put beside it, and with
    every other property of the output kept; no property is duplicated. *)
Theorem cost_is_surfaced `{NumberHost} (output : value) :
  (is_nullish output = true ∨ truthy (member output (lit "cost")) = false →
   success_value output = output)
  ∧ (∀ props cost,
       output = VObj props →
       own_prop props (lit "cost") = Some cost → truthy cost = true →
       ∃ props',
         success_value output = VObj props'
         ∧ own_prop props' (lit "cost")
           = Some (VObj [ (lit "input", member cost (lit "input"));
                          (lit "output", member cost (lit "output"));
                          (lit "total", member cost (lit "total")) ])
         ∧ own_prop props' (lit "tokens") = Some (member cost (lit "tokens"))
         ∧ own_prop props' (lit "model") = Some (member cost (lit "model"))
         ∧ (∀ k, k ≠ lit "cost" → k ≠ lit "tokens" → k ≠ lit "model" →
              own_prop props' k = own_prop props k)
         ∧ (NoDup props.*1 → NoDup props'.*1)).
Proof.
  split.
  - unfold success_value. intros [-> | Hc]; [done |].
    destruct (is_nullish output); [done | by rewrite Hc].
  - intros props cost -> Hcost Htruthy. unfold success_value.
    cbn [is_nullish member spread]. rewrite Hcost.
    change (default VUndefined (Some cost)) with cost.
    change (id cost) with cost. rewrite Htruthy. eexists. split; [reflexivity |].
    rewrite !own_prop_obj_set. repeat split.
    + intros k Hk1 Hk2 Hk3. rewrite !own_prop_obj_set.
      by rewrite !bool_decide_eq_false_2.
    + intros Hnd. by do 3 apply obj_set_NoDup.
Qed.

Section SuccessEvaluation.
Import Sample.

Lemma execute_returns_exactly_on_success_witness :
  (execute (engine None (succeeded (VObj [ (lit "id", @VNum integers 7%Z) ])))
     run_context vault_block ∅).1
  = Returned (VObj [ (lit "id", @VNum integers 7%Z) ]).
Proof.
  apply (proj2 (execute_returns_exactly_on_success _ _ _ _ _)).
  eexists _, _. repeat split; reflexivity.
Defined.

End SuccessEvaluation.

(** ** What finalization leaves alone *)

Section ConfinementFacts.
Context `{StringHost} `{NumberHost} `{!JsonHost}.

Lemma coerce_entry_dom (st : gmap jsstring value * list jsstring)
    (entry : jsstring * InputSchema) :
  dom (coerce_entry st entry).1 = dom st.1.
Proof.
  destruct st as [m log], entry as [k sch]. cbn.
  destruct (m !! k) as [v|] eqn:Hk; cbn; [| done].
  destruct v; try done.
  case_bool_decide; [| done]. destruct (_ || _); [| done].
  destruct (JSON_parse _); [| done]. cbn. rewrite dom_insert_L.
  apply subseteq_union_1_L, singleton_subseteq_l. by apply elem_of_dom_2 in Hk.
Qed.

Lemma coerce_fold_dom (entries : list (jsstring * InputSchema))
    (st : gmap jsstring value * list jsstring) :
  dom (fold_left coerce_entry entries st).1 = dom st.1.
Proof.
  revert st. induction entries as [|entry entries IH]; intros st; [done |].
  cbn [fold_left]. by rewrite IH, coerce_entry_dom.
Qed.

Lemma coerce_entry_not_string (st : gmap jsstring value * list jsstring)
    (entry : jsstring * InputSchema) (key : jsstring) :
  (∀ s, st.1 !! key ≠ Some (VStr s)) →
  (coerce_entry st entry).1 !! key = st.1 !! key.
Proof.
  intros Hns. destruct (decide (entry.1 = key)) as [Hk | Hk];
    [| by apply coerce_entry_other].
  destruct st as [m log], entry as [k sch]. cbn [fst] in *. subst k.
  unfold coerce_entry. destruct (m !! key) as [v|] eqn:Hv; [| exact Hv].
  change (default VUndefined (Some v)) with v.
  destruct v as [| | b | n | str | items | props]; try exact Hv.
  by destruct (Hns str).
Qed.

Lemma coerce_fold_not_string (entries : list (jsstring * InputSchema))
    (st : gmap jsstring value * list jsstring) (key : jsstring) :
  (∀ s, st.1 !! key ≠ Some (VStr s)) →
  (fold_left coerce_entry entries st).1 !! key = st.1 !! key.
Proof.
  revert st. induction entries as [|entry entries IH]; intros st Hns; [done |].
  cbn [fold_left].
  pose proof (coerce_entry_not_string st entry key Hns) as Hstep.
  rewrite IH; [done |]. intros s. by rewrite Hstep.
Qed.

Lemma coerce_entry_plain (st : gmap jsstring value * list jsstring)
    (k : jsstring) (sch : InputSchema) :
  schema_type sch ≠ lit "json" → schema_type sch ≠ lit "array" →
  coerce_entry st (k, sch) = st.
Proof.
  intros Hj Ha. destruct st as [m log]. cbn.
  destruct (default VUndefined (m !! k)); try done.
  case_bool_decide; [| done].
  by rewrite !bool_decide_eq_false_2.
Qed.

Lemma coerce_fold_plain (entries : list (jsstring * InputSchema))
    (st : gmap jsstring value * list jsstring) (key : jsstring) :
  (∀ sch, (key, sch) ∈ entries →
     schema_type sch ≠ lit "json" ∧ schema_type sch ≠ lit "array") →
  (fold_left coerce_entry entries st).1 !! key = st.1 !! key.
Proof.
  revert st. induction entries as [|[k sch] entries IH]; intros st Hplain;
    [done |].
  cbn [fold_left]. rewrite IH by (intros sch' Hin; apply Hplain; by right).
  destruct (decide (k = key)) as [-> | Hk].
  - destruct (Hplain sch) as [Hj Ha]; [by left |].
    by rewrite coerce_entry_plain.
  - by apply coerce_entry_other.
Qed.

(** Warnings are only ever added. *)
Lemma coerce_entry_log_grows (st : gmap jsstring value * list jsstring)
    (entry : jsstring * InputSchema) (w : jsstring) :
  w ∈ st.2 → w ∈ (coerce_entry st entry).2.
Proof.
  destruct st as [m log], entry as [k sch]. cbn. intros Hw.
  destruct (default VUndefined (m !! k)); try done.
  case_bool_decide; [| done]. destruct (_ || _); [| done].
  destruct (JSON_parse _); cbn; [done |]. apply elem_of_app. by left.
Qed.

Lemma coerce_fold_log_grows (entries : list (jsstring * InputSchema))
    (st : gmap jsstring value * list jsstring) (w : jsstring) :
  w ∈ st.2 → w ∈ (fold_left coerce_entry entries st).2.
Proof.
  revert st. induction entries as [|entry entries IH]; intros st Hw; [done |].
  cbn [fold_left]. by apply IH, coerce_entry_log_grows.
Qed.

Lemma coerce_entry_logs_failure (m : gmap jsstring value)
    (log : list jsstring) (key : jsstring) (sch : InputSchema) (s : jsstring) :
  schema_type sch = lit "json" ∨ schema_type sch = lit "array" →
  m !! key = Some (VStr s) → trim s ≠ [] → JSON_parse (trim s) = None →
  lit "Failed to parse " ++ schema_type sch ++ lit " field "
  ++ dquote ++ key ++ dquote ++ lit ":"
  ∈ (coerce_entry (m, log) (key, sch)).2.
Proof.
  intros Hty Hs Hne Hfail. unfold coerce_entry. rewrite Hs.
  change (default VUndefined (Some (VStr s))) with (VStr s). cbv beta iota zeta.
  rewrite bool_decide_eq_true_2
    by (destruct (trim s); [done | cbn; lia]).
  assert (Hj : bool_decide (schema_type sch = lit "json")
               || bool_decide (schema_type sch = lit "array") = true).
  { apply orb_true_iff. destruct Hty as [Hty | Hty];
      [left | right]; by apply bool_decide_eq_true_2. }
  rewrite Hj, Hfail. cbn [snd]. apply elem_of_app. right. by left.
Qed.

End ConfinementFacts.

(** Coercion is confined to string values of fields declared "json" or
    "array": it never adds or removes an input, and it leaves alone every
    input that is not declared, every input that is not a string, and every
    input declared with another type. *)
Theorem coercion_is_confined `{StringHost} `{NumberHost} `{!JsonHost}
    (config : option BlockConfig)
    (st : gmap jsstring value * list jsstring) (key : jsstring) :
  dom (coerce_inputs config st).1 = dom st.1
  ∧ (config ≫= block_inputs = None → coerce_inputs config st = st)
  ∧ ((∀ entries, config ≫= block_inputs = Some entries → key ∉ entries.*1) →
     (coerce_inputs config st).1 !! key = st.1 !! key)
  ∧ ((∀ s, st.1 !! key ≠ Some (VStr s)) →
     (coerce_inputs config st).1 !! key = st.1 !! key)
  ∧ ((∀ entries sch, config ≫= block_inputs = Some entries →
        (key, sch) ∈ entries →
        schema_type sch ≠ lit "json" ∧ schema_type sch ≠ lit "array") →
     (coerce_inputs config st).1 !! key = st.1 !! key).
Proof.
  unfold coerce_inputs.
  destruct (config ≫= block_inputs) as [entries|]; [| done].
  split; [apply coerce_fold_dom |]. split; [done |].
  split; [| split].
  - intros Hout. by apply coerce_fold_other, Hout.
  - intros Hns. by apply coerce_fold_not_string.
  - intros Hplain. apply coerce_fold_plain. intros sch. by apply Hplain.
Qed.

(** A declared "json" or "array" field whose text is not blank and does
    not parse leaves a warning that names the field and its type. *)
Theorem parse_failure_is_logged `{StringHost} `{NumberHost} `{!JsonHost}
    (E : Engine) (block : SerializedBlock)
    (inputs : gmap jsstring value) (blockType : jsstring) (config : BlockConfig)
    (entries : list (jsstring * InputSchema))
    (key : jsstring) (sch : InputSchema) (s : jsstring) :
  metadata block ≫= meta_id = Some blockType → blockType ≠ [] →
  getBlock E blockType = Some config →
  block_inputs config = Some entries →
  NoDup entries.*1 → (key, sch) ∈ entries →
  schema_type sch = lit "json" ∨ schema_type sch = lit "array" →
  (transform_inputs blockType (Some config) inputs).1 !! key = Some (VStr s) →
  trim s ≠ [] → JSON_parse (trim s) = None →
  lit "Failed to parse " ++ schema_type sch ++ lit " field "
  ++ dquote ++ key ++ dquote ++ lit ":"
  ∈ (finalize_inputs E block inputs).2.
Proof.
  intros Hmeta Hne Hconfig Hentries Hnodup Hin Hty Hs Htrim Hfail.
  rewrite (finalize_inputs_typed E block inputs blockType Hmeta Hne), Hconfig.
  unfold coerce_inputs. cbn [mbind option_bind]. rewrite Hentries.
  destruct (transform_inputs blockType (Some config) inputs) as [m log].
  cbn [fst] in Hs.
  apply list_elem_of_split in Hin as (before & after & ->).
  rewrite fmap_app, fmap_cons in Hnodup. cbn in Hnodup.
  apply NoDup_app in Hnodup as (_ & Hsep & _).
  assert (Hbefore : key ∉ before.*1).
  { intros Hk. apply (Hsep key Hk). by left. }
  rewrite fold_left_app. cbn [fold_left].
  apply coerce_fold_log_grows.
  destruct (fold_left coerce_entry before (m, log)) as [m' log'] eqn:Hfold.
  apply coerce_entry_logs_failure with (s := s); try done.
  change m' with (m', log').1. rewrite <- Hfold.
  by rewrite coerce_fold_other.
Qed.

(** A block without a type, with an empty type, or with a type that has
    no registered configuration has its inputs handed on exactly as given,
    with nothing logged. *)
Theorem untyped_blocks_pass_inputs_through `{StringHost} `{NumberHost}
    `{!JsonHost}
    (E : Engine) (block : SerializedBlock) (inputs : gmap jsstring value) :
  (metadata block ≫= meta_id = None ∨ metadata block ≫= meta_id = Some [] →
   finalize_inputs E block inputs = (inputs, []))
  ∧ (∀ blockType, metadata block ≫= meta_id = Some blockType →
       getBlock E blockType = None →
       finalize_inputs E block inputs = (inputs, [])).
Proof.
  unfold finalize_inputs. split.
  - by intros [-> | ->].
  - intros blockType -> Hnone. destruct blockType; [done |].
    by rewrite Hnone.
Qed.

(** The [_context] parameter is reserved: tool execution always receives
    the three execution ids under it, an input of that name is discarded,
    and every other finalized input is passed as it is. *)
Theorem context_parameter_is_reserved `{NumberHost}
    (ctx : ExecutionContext) (finalInputs : gmap jsstring value) :
  tool_params ctx finalInputs !! lit "_context"
  = Some (VObj [ (lit "workflowId", workflowId ctx);
                 (lit "workspaceId", workspaceId ctx);
                 (lit "executionId", executionId ctx) ])
  ∧ (∀ k, k ≠ lit "_context" →
       tool_params ctx finalInputs !! k = finalInputs !! k)
  ∧ (∀ v, tool_params ctx (<[ lit "_context" := v ]> finalInputs)
          = tool_params ctx finalInputs).
Proof.
  unfold tool_params. split; [by rewrite lookup_insert_eq |]. split.
  - intros k Hk. by rewrite lookup_insert_ne.
  - intros v. by rewrite insert_insert_eq.
Qed.

(** A block the handler accepts has the type "google_vault", so its
    inputs are finalized with the configuration registered for that
    type. *)
Theorem handled_blocks_use_vault_config `{StringHost} `{NumberHost}
    `{!JsonHost}
    (E : Engine) (block : SerializedBlock) (inputs : gmap jsstring value) :
  canHandle block = true →
  metadata block ≫= meta_id = Some (lit "google_vault")
  ∧ finalize_inputs E block inputs
    = coerce_inputs (getBlock E (lit "google_vault"))
        (transform_inputs (lit "google_vault")
           (getBlock E (lit "google_vault")) inputs).
Proof.
  intros Hcan. apply bool_decide_eq_true_1 in Hcan. split; [done |].
  by apply finalize_inputs_typed.
Qed.

Section ConfinementEvaluation.
Import Sample.

Lemma parse_failure_is_logged_witness :
  let config :=
    {| tools_config_params := None;
       block_inputs := Some [ (lit "query", ParamConfig (lit "json")) ] |} in
  lit "Failed to parse json field " ++ dquote ++ lit "query" ++ dquote
  ++ lit ":"
  ∈ (finalize_inputs (engine (Some config) (failed None)) vault_block
       {[ lit "query" := VStr (lit "{a:") ]}).2.
Proof.
  intros config.
  exact (parse_failure_is_logged
    (engine (Some config) (failed None)) vault_block
    {[ lit "query" := VStr (lit "{a:") ]} (lit "google_vault") config
    [ (lit "query", ParamConfig (lit "json")) ] (lit "query")
    (ParamConfig (lit "json")) (lit "{a:")
    eq_refl ltac:(discriminate) eq_refl eq_refl
    ltac:(apply NoDup_singleton) ltac:(apply list_elem_of_here)
    (or_introl eq_refl) ltac:(vm_compute; reflexivity)
    ltac:(discriminate) eq_refl).
Defined.

Lemma handled_blocks_use_vault_config_witness :
  metadata vault_block ≫= meta_id = Some (lit "google_vault").
Proof.
  exact (proj1 (handled_blocks_use_vault_config
                  (engine None (failed None)) vault_block ∅ eq_refl)).
Defined.

End ConfinementEvaluation.

(** ** The tag list *)

Section TagListFacts.
Context `{NumberHost} `{!DateHost}.

Lemma TAG_SLOTS_NoDup : NoDup TAG_SLOTS.
Proof. apply (bool_decide_unpack (NoDup TAG_SLOTS)). vm_compute. exact I. Qed.

Lemma TAG_SLOTS_named (s : jsstring) : s ∈ TAG_SLOTS → s ≠ [].
Proof.
  intros Hs ->. revert Hs.
  apply (bool_decide_unpack ([] ∉ TAG_SLOTS)). vm_compute. exact I.
Qed.

Lemma filter_NoDup {A : Type} (f : A → bool) (l : list A) :
  NoDup l → NoDup (List.filter f l).
Proof.
  induction 1 as [|x l Hx Hl IH]; cbn; [constructor |].
  destruct (f x); [| done]. constructor; [| done].
  intros Hin. apply Hx.
  by apply list_elem_of_In, filter_In in Hin as [Hin%list_elem_of_In _].
Qed.

Lemma or_else_set (a : option jsstring) (b : jsstring) :
  b ≠ [] → or_else a b ≠ [].
Proof. intros Hb. by destruct a as [[|c a]|]. Qed.

Lemma getFieldType_set (s : jsstring) : getFieldType s ≠ [].
Proof. unfold getFieldType. by repeat destruct (starts_with _ _). Qed.

(** The tag list depends on the document only through the values of the
    tag slots, and on the definitions only through the one found for each
    slot. *)
Lemma tags_ext (document document' : gmap jsstring value)
    (tagDefinitions tagDefinitions' : list TagDefinition) :
  (∀ s, s ∈ TAG_SLOTS → document_get document s = document_get document' s) →
  (∀ s, s ∈ TAG_SLOTS →
     matching_definition tagDefinitions s
     = matching_definition tagDefinitions' s) →
  tags document tagDefinitions = tags document' tagDefinitions'.
Proof.
  intros Hdoc Hdefs. rewrite !tags_filter. revert Hdoc Hdefs.
  generalize TAG_SLOTS. intros slots.
  induction slots as [|s slots IH]; intros Hdoc Hdefs; [done |].
  cbn [List.filter].
  assert (Hq : qualifies document tagDefinitions s
               = qualifies document' tagDefinitions' s).
  { unfold qualifies, resolved_fieldType.
    by rewrite Hdoc, Hdefs by (by left). }
  assert (Ht : tag_for document tagDefinitions s
               = tag_for document' tagDefinitions' s).
  { unfold tag_for, resolved_fieldType.
    by rewrite Hdoc, Hdefs by (by left). }
  assert (Hrest : tag_for document tagDefinitions
                  <$> List.filter (qualifies document tagDefinitions) slots
                  = tag_for document' tagDefinitions'
                    <$> List.filter (qualifies document' tagDefinitions') slots).
  { apply IH; intros s' Hs'; [apply Hdoc | apply Hdefs]; by right. }
  rewrite Hq. destruct (qualifies document' tagDefinitions' s); [| done].
  cbn [fmap list_fmap]. cbn [fmap list_fmap] in Hrest. by rewrite Ht, Hrest.
Qed.

Lemma matching_definition_app (pre post : list TagDefinition) (s : jsstring) :
  matching_definition (pre ++ post) s
  = match matching_definition pre s with
    | Some d => Some d
    | None => matching_definition post s
    end.
Proof.
  unfold matching_definition.
  induction pre as [|d pre IH]; [done |]. cbn [app List.find].
  by destruct (bool_decide (def_tagSlot d = s)).
Qed.

Lemma matching_definition_cons (d : TagDefinition) (l : list TagDefinition)
    (s : jsstring) :
  matching_definition (d :: l) s
  = if bool_decide (def_tagSlot d = s) then Some d
    else matching_definition l s.
Proof. reflexivity. Qed.

End TagListFacts.

(** The tag list never repeats a slot, so the [key]s of the rendered
    badges and rows are pairwise distinct; it holds at most seventeen
    tags, each for a slot of the fixed list, and no tag has an empty
    value, display name or field type. *)
Theorem tags_are_distinct_and_filled `{NumberHost} `{!DateHost}
    (document : gmap jsstring value) (tagDefinitions : list TagDefinition) :
  NoDup (slot <$> tags document tagDefinitions)
  ∧ (length (tags document tagDefinitions) ≤ 17)%nat
  ∧ (∀ t, t ∈ tags document tagDefinitions →
       slot t ∈ TAG_SLOTS ∧ tv_value t ≠ [] ∧ displayName t ≠ []
       ∧ fieldType t ≠ []).
Proof.
  split; [| split].
  - rewrite tags_slots. apply filter_NoDup, TAG_SLOTS_NoDup.
  - rewrite <- (length_fmap slot), tags_slots.
    apply (filter_length_le (qualifies document tagDefinitions) TAG_SLOTS).
  - intros t Ht. apply tags_elem in Ht as (Ht & Hslot & Hq).
    apply qualifies_true in Hq as [_ Hq].
    split; [done |]. rewrite Ht. unfold tag_for.
    cbn [tv_value displayName fieldType slot].
    split; [done |]. split.
    + by apply or_else_set, TAG_SLOTS_named.
    + apply or_else_set, getFieldType_set.
Qed.

(** Properties of the document outside the tag slots play no part, and
    clearing a slot (storing [null]) removes that slot's tag and leaves
    every other tag and their order as they were. *)
Theorem tags_read_only_their_slots `{NumberHost} `{!DateHost}
    (document : gmap jsstring value) (tagDefinitions : list TagDefinition)
    (k : jsstring) (v : value) :
  (k ∉ TAG_SLOTS →
   tags (<[ k := v ]> document) tagDefinitions = tags document tagDefinitions
   ∧ tags (delete k document) tagDefinitions = tags document tagDefinitions)
  ∧ tags (<[ k := VNull ]> document) tagDefinitions
    = List.filter (λ t, negb (bool_decide (slot t = k)))
        (tags document tagDefinitions).
Proof.
  split.
  - intros Hk. split; apply tags_ext; try done; intros s Hs;
      unfold document_get.
    + rewrite lookup_insert_ne; [done |]. by intros ->.
    + rewrite lookup_delete_ne; [done |]. by intros ->.
  - rewrite !tags_filter. generalize TAG_SLOTS. intros slots.
    induction slots as [|s slots IH]; [done |]. cbn [List.filter].
    cbn [fmap list_fmap] in IH.
    destruct (decide (s = k)) as [-> | Hs].
    + assert (Hq : qualifies (<[ k := VNull ]> document) tagDefinitions k
                   = false).
      { unfold qualifies, document_get. by rewrite lookup_insert_eq. }
      rewrite Hq. destruct (qualifies document tagDefinitions k).
      * cbn [fmap list_fmap List.filter].
        change (slot (tag_for document tagDefinitions k)) with k.
        rewrite bool_decide_eq_true_2 by done. exact IH.
      * exact IH.
    + assert (Hget : document_get (<[ k := VNull ]> document) s
                     = document_get document s).
      { unfold document_get. by rewrite lookup_insert_ne. }
      assert (Hq : qualifies (<[ k := VNull ]> document) tagDefinitions s
                   = qualifies document tagDefinitions s).
      { unfold qualifies. by rewrite Hget. }
      assert (Ht : tag_for (<[ k := VNull ]> document) tagDefinitions s
                   = tag_for document tagDefinitions s).
      { unfold tag_for. by rewrite Hget. }
      rewrite Hq. destruct (qualifies document tagDefinitions s); [| exact IH].
      cbn [fmap list_fmap List.filter]. rewrite Ht.
      change (slot (tag_for document tagDefinitions s)) with s.
      rewrite bool_decide_eq_false_2 by done. cbn [negb]. by rewrite IH.
Qed.

(** When several definitions name the same slot the first one is used: a
    later definition for a slot that an earlier one already names changes
    nothing, and neither does a definition for a name that is not a tag
    slot. *)
Theorem first_definition_wins `{NumberHost} `{!DateHost}
    (document : gmap jsstring value)
    (before between after : list TagDefinition) (d d' : TagDefinition) :
  (def_tagSlot d' = def_tagSlot d →
   tags document (before ++ d :: between ++ d' :: after)
   = tags document (before ++ d :: between ++ after))
  ∧ (def_tagSlot d' ∉ TAG_SLOTS →
     tags document (before ++ d' :: after) = tags document (before ++ after)).
Proof.
  split.
  - intros Hsame. apply tags_ext; [done |]. intros s _.
    rewrite !matching_definition_app, !matching_definition_cons.
    destruct (matching_definition before s); [done |].
    destruct (decide (def_tagSlot d = s)) as [Hd | Hd].
    + by rewrite !(bool_decide_eq_true_2 (def_tagSlot d = s)).
    + rewrite !(bool_decide_eq_false_2 (def_tagSlot d = s)) by done.
      rewrite !matching_definition_app, matching_definition_cons.
      destruct (matching_definition between s); [done |].
      by rewrite bool_decide_eq_false_2 by congruence.
  - intros Hout. apply tags_ext; [done |]. intros s Hs.
    rewrite !matching_definition_app, matching_definition_cons.
    destruct (matching_definition before s); [done |].
    rewrite bool_decide_eq_false_2; [done |]. by intros <-.
Qed.

(** In a slot whose field type is "boolean" every stored value that is
    not [null] or [undefined] is shown, as "Yes" when it is truthy and as
    "No" otherwise; a non-empty string is truthy, so the stored text
    "false" is shown as "Yes". *)
Theorem boolean_slots_always_show `{NumberHost} `{!DateHost}
    (document : gmap jsstring value) (tagDefinitions : list TagDefinition)
    (s : jsstring) :
  s ∈ TAG_SLOTS →
  resolved_fieldType tagDefinitions s = lit "boolean" →
  is_nullish (document_get document s) = false →
  tag_for document tagDefinitions s ∈ tags document tagDefinitions
  ∧ tv_value (tag_for document tagDefinitions s)
    = (if truthy (document_get document s) then lit "Yes" else lit "No")
  ∧ (∀ text, text ≠ [] → document_get document s = VStr text →
       tv_value (tag_for document tagDefinitions s) = lit "Yes").
Proof.
  intros Hslot Hty Hv.
  assert (Hval : tv_value (tag_for document tagDefinitions s)
                 = if truthy (document_get document s)
                   then lit "Yes" else lit "No").
  { unfold tag_for. cbn [tv_value]. rewrite Hty.
    by apply formatTagValue_boolean. }
  split; [| split; [done |]].
  - apply tags_elem. split; [done |]. split; [done |].
    apply qualifies_true. split; [done |].
    change (tv_value (tag_for document tagDefinitions s) ≠ []).
    rewrite Hval. by destruct (truthy _).
  - intros text Hne Htext. rewrite Hval, Htext. cbn.
    by rewrite bool_decide_eq_false_2.
Qed.

Section TagListEvaluation.
Import Sample.

Lemma boolean_slots_always_show_witness :
  let doc : gmap jsstring value :=
    {[ lit "boolean2" := VStr (lit "false") ]} in
  tag_for doc [] (lit "boolean2") ∈ tags doc []
  ∧ tv_value (tag_for doc [] (lit "boolean2")) = lit "Yes".
Proof.
  intros doc.
  assert (Hslot : lit "boolean2" ∈ TAG_SLOTS)
    by (apply list_elem_of_In; vm_compute; tauto).
  destruct (boolean_slots_always_show doc [] (lit "boolean2")
              Hslot eq_refl eq_refl) as (Hin & _ & Hyes).
  split; [exact Hin |].
  exact (Hyes (lit "false") ltac:(discriminate) eq_refl).
Defined.

End TagListEvaluation.

(** ** Tooltips of the cell *)

Section TooltipFacts.
Context `{NumberHost} `{!DateHost}.

Lemma inline_tooltips (l : list TagValue) :
  flat_map (elements "Tooltip.Content") (inline_badge <$> l)
  = (λ t, Elem "Tooltip.Content" None
            [ Text (displayName t); Text (lit ": "); Text (tv_value t) ])
    <$> l.
Proof.
  induction l as [|t l IH]; [done |].
  cbn [fmap list_fmap flat_map]. rewrite IH. reflexivity.
Qed.

Lemma detail_rows_no_tooltip (l : list TagValue) :
  flat_map (elements "Tooltip.Content") (detail_row <$> l) = [].
Proof.
  induction l as [|t l IH]; [done |].
  cbn [fmap list_fmap flat_map]. rewrite IH. reflexivity.
Qed.

Lemma inline_tooltip_texts (l : list TagValue) :
  text_of <$> ((λ t, Elem "Tooltip.Content" None
                       [ Text (displayName t); Text (lit ": ");
                         Text (tv_value t) ]) <$> l)
  = (λ t, displayName t ++ lit ": " ++ tv_value t) <$> l.
Proof.
  induction l as [|t l IH]; [done |].
  cbn [fmap list_fmap] in *. rewrite IH. cbn [text_of List.map List.concat].
  by rewrite app_nil_r.
Qed.

End TooltipFacts.

(** The tooltips of the cell: each inline badge has one reading
    "<display name>: <value>", and the count badge has one listing the
    display names of exactly the tags that are not inline, separated by
    ", "; the placeholder has none. *)
Theorem tooltips_name_every_tag `{NumberHost} `{!DateHost}
    (document : gmap jsstring value) (tagDefinitions : list TagDefinition) :
  let ts := tags document tagDefinitions in
  text_of <$> elements "Tooltip.Content"
                (DocumentTagsCell document tagDefinitions)
  = ((λ t, displayName t ++ lit ": " ++ tv_value t) <$> take 2 ts)
    ++ (if bool_decide (2 < length ts)%nat
        then [ join (lit ", ") (displayName <$> drop 2 ts) ] else []).
Proof.
  intros ts. unfold DocumentTagsCell. fold ts. generalize ts. clear.
  intros ts. destruct (decide (ts = [])) as [-> | Hne]; [done |].
  rewrite render_nonempty by done. cbn [elements].
  change (String.eqb "div" "Tooltip.Content") with false. cbn [app].
  rewrite flat_map_app, inline_tooltips, fmap_app, inline_tooltip_texts.
  f_equal. case_bool_decide; [| done].
  unfold overflow_popover. cbn [flat_map elements].
  change (String.eqb "Popover" "Tooltip.Content") with false.
  change (String.eqb "Tooltip.Root" "Tooltip.Content") with false.
  change (String.eqb "Tooltip.Trigger" "Tooltip.Content") with false.
  change (String.eqb "PopoverAnchor" "Tooltip.Content") with false.
  change (String.eqb "Badge" "Tooltip.Content") with false.
  change (String.eqb "PopoverContent" "Tooltip.Content") with false.
  change (String.eqb "div" "Tooltip.Content") with false.
  change (String.eqb "Tooltip.Content" "Tooltip.Content") with true.
  rewrite detail_rows_no_tooltip. cbn [app fmap list_fmap].
  cbn [text_of List.map List.concat]. by rewrite app_nil_r.
Qed.

(** ** Settling of the matter-creation response *)

(** [transformResponse] fulfils exactly for a successful response with a
    JSON body, and never for an unsuccessful one.  For an unsuccessful
    response whose body is an object, the error message is built from the
    string under [error.message] when that is a non-empty string, and from
    "Failed to create matter" when the body has no [error] or the [error]
    has no [message] or an empty one. *)
Theorem matter_response_settles `{NumberHost}
    (enhanceGoogleVaultError : value → jsstring)
    (response : VaultTool.Response) :
  let tool := VaultTool.createMattersTool enhanceGoogleVaultError in
  let fallback :=
    VaultTool.ThrewError
      (enhanceGoogleVaultError (VStr (lit "Failed to create matter"))) in
  (∀ result,
     VaultTool.transformResponse tool response = VaultTool.Fulfilled result
     ↔ VaultTool.ok response = true
       ∧ ∃ data, VaultTool.json response = Some data
                 ∧ result
                   = VObj [ (lit "success", VBool true);
                            (lit "output", VObj [ (lit "matter", data) ]) ])
  ∧ (∀ props,
       VaultTool.ok response = false →
       VaultTool.json response = Some (VObj props) →
       (∀ eprops m,
          own_prop props (lit "error") = Some (VObj eprops) →
          own_prop eprops (lit "message") = Some (VStr m) → m ≠ [] →
          VaultTool.transformResponse tool response
          = VaultTool.ThrewError (enhanceGoogleVaultError (VStr m)))
       ∧ (own_prop props (lit "error") = None →
          VaultTool.transformResponse tool response = fallback)
       ∧ (∀ eprops,
            own_prop props (lit "error") = Some (VObj eprops) →
            own_prop eprops (lit "message") = None
            ∨ own_prop eprops (lit "message") = Some (VStr []) →
            VaultTool.transformResponse tool response = fallback)).
Proof.
  intros tool fallback. unfold tool, fallback.
  cbn [VaultTool.transformResponse VaultTool.createMattersTool]. split.
  - intros result. split.
    + destruct (VaultTool.json response) as [data|]; [| done].
      destruct (VaultTool.ok response); cbn [negb].
      * intros [= <-]. split; [done |]. by exists data.
      * by destruct (is_nullish data).
    + intros (Hok & data & Hjson & ->). by rewrite Hjson, Hok.
  - intros props Hok Hjson. rewrite Hjson, Hok. cbn [negb is_nullish member].
    split; [| split].
    + intros eprops m Herr Hmsg Hne. rewrite Herr.
      change (default VUndefined (Some (VObj eprops))) with (VObj eprops).
      cbn [is_nullish member]. rewrite Hmsg.
      change (default VUndefined (Some (VStr m))) with (VStr m).
      cbn [truthy]. by rewrite bool_decide_eq_false_2.
    + by intros ->.
    + intros eprops Herr Hmsg. rewrite Herr.
      change (default VUndefined (Some (VObj eprops))) with (VObj eprops).
      cbn [is_nullish member]. by destruct Hmsg as [-> | ->].
Qed.
